(** * Anomaly-detection and alert-lifecycle core: a shallow embedding

    The Python classes that carry the algorithmic content of the
    monitoring backend are embedded here:

    - [alert_manager]: class [AlertManager] of
      [backend/app/services/alert_manager.py];
    - [ai_engine]: class [AIEngine] of
      [backend/app/services/ai_engine.py];
    - [connection_manager]: class [ConnectionManager] of
      [backend/app/main.py].

    Conventions of the embedding.

    - Python numbers read from a snapshot (ints and floats decoded from JSON)
      are rationals [Q]; comparisons are the exact ones, and so are the
      arithmetic operations and [numpy.mean].  The first coefficient of
      [numpy.polyfit(x, y, 1)] is the float that the library returns: it
      stays abstract (class [Numpy]).
    - A [dict] is a [gmap]; the order in which a [dict] is iterated is not
      represented, so lists produced from a [dict] are meaningful up to
      permutation.
    - [datetime.now()] is a clock reading handed to every operation, an
      integer number of microseconds.
    - A method with a [try]/[except] handler is a total function; the
      exceptional paths are written out and end in the handler's result.
    - scikit-learn's [StandardScaler] and [IsolationForest] stay abstract
      (class [SkLearn]); any of their calls may raise. *)

From Stdlib Require Import QArith Lqa.
From stdpp Require Import gmap strings list fin_maps.

(** ** Python helpers *)

(** An f-string: literal pieces and interpolated numbers ([Num1f] is the
    [:.1f] format). *)
Inductive Piece :=
  | Lit (s : string)
  | Num (q : Q)
  | Num1f (q : Q).

Definition Text := list Piece.

(** [l[-n:]] for a non-negative literal [n > 0]. *)
Definition last_n {A} (n : nat) (l : list A) : list A :=
  drop (length l - n) l.

(** [l[-a:-b]] for literals [a > b > 0]. *)
Definition slice_neg {A} (a b : nat) (l : list A) : list A :=
  take ((length l - b) - (length l - a)) (drop (length l - a) l).

(** [l[start:]] for an arbitrary integer [start]. *)
Definition slice_from {A} (start : Z) (l : list A) : list A :=
  drop (Z.to_nat (if (start <? 0)%Z
                  then Z.max 0 (Z.of_nat (length l) + start)
                  else start)) l.

(** [a < b] on numbers, as a test. *)
Definition Qltb (a b : Q) : bool := negb (Qle_bool b a).

(** [sum(l)] and [numpy.mean(l)]. *)
Definition Qsum (l : list Q) : Q := foldr Qplus 0%Q l.

Definition mean (l : list Q) : Q :=
  (Qsum l / inject_Z (Z.of_nat (length l)))%Q.

(** The slope of the least-squares line through the points [(i, y_i)],
    [i = 0, 1, ..., len(y) - 1], in exact arithmetic. *)
Definition least_squares_slope (y : list Q) : Q :=
  let n := inject_Z (Z.of_nat (length y)) in
  let x := (λ i, inject_Z (Z.of_nat i)) <$> seq 0 (length y) in
  let sx := Qsum x in
  let sy := Qsum y in
  let sxy := Qsum (zip_with Qmult x y) in
  let sxx := Qsum (zip_with Qmult x x) in
  ((n * sxy - sx * sy) / (n * sxx - sx * sx))%Q.

(** [int(q)]: truncation towards zero. *)
Definition Qtrunc (q : Q) : Z := Z.quot (Qnum q) (Zpos (Qden q)).

(** [collections.deque(maxlen=n)]: [append] adds on the right and, when the
    length then exceeds [maxlen], drops the leftmost item. *)
Record deque (A : Type) := Deque { maxlen : nat; items : list A }.
Arguments Deque {A} _ _.
Arguments maxlen {A} _.
Arguments items {A} _.

Definition deque_append {A} (x : A) (d : deque A) : deque A :=
  let l := items d ++ [x] in
  Deque (maxlen d) (if maxlen d <? length l then drop 1 l else l).

(** A computation over a state [S] that may raise: [None] is a raised
    exception, with the state as it was left. *)
Definition Exn (S A : Type) : Type := S → S * option A.

Definition ret {S A} (a : A) : Exn S A := λ s, (s, Some a).

Definition bind {S A B} (m : Exn S A) (k : A → Exn S B) : Exn S B :=
  λ s, match m s with
       | (s', Some a) => k a s'
       | (s', None) => (s', None)
       end.

Definition gets {S A} (f : S → A) : Exn S A := λ s, (s, Some (f s)).

Definition modify {S} (f : S → S) : Exn S unit := λ s, (f s, Some tt).

(** A partial operation: [None] raises. *)
Definition lift {S A} (o : option A) : Exn S A := λ s, (s, o).

(** A call of a method that handles its own exceptions. *)
Definition call {S A} (f : S → S * A) : Exn S A :=
  λ s, let (s', a) := f s in (s', Some a).

(** [try: m  except Exception: return handler] *)
Definition try_except {S A} (m : Exn S A) (handler : A) : S → S * A :=
  λ s, match m s with
       | (s', Some a) => (s', a)
       | (s', None) => (s', handler)
       end.

Notation "'let*' x ':=' m 'in' k" := (bind m (λ x, k))
  (at level 10, x name, m at level 100, k at level 200).

(** ** The alert manager *)

Module alert_manager.

(** The argument of [process_alert]: a dict of which the method reads these
    keys; [None] is an absent key. *)
Record AlertData := {
  ad_type : option string;
  ad_agent_id : option string;
  ad_severity : option string;
  ad_description : option Text;
  ad_suggested_action : option string
}.

Inductive Status := active | resolved.

(** The dict built by [process_alert]; [resolved_at] is the key that
    [resolve_alert] adds. *)
Record Alert := {
  id : string;
  type : string;
  severity : string;
  description : Text;
  first_seen : Z;
  last_seen : Z;
  count : Z;
  status : Status;
  agent_id : option string;
  suggested_action : option string;
  resolved_at : option Z
}.

Record Rule := { threshold : Q; duration : Z; rule_severity : string }.

(** The alert dicts are mutable objects: [objects] is the store they live in
    and [next_object] the next unused reference.  [active_alerts] and
    [alert_history] hold references, so that a mutation through one of them
    is seen through every alias and through no copy. *)
Record AlertManager := {
  objects : gmap nat Alert;
  next_object : nat;
  active_alerts : gmap string nat;
  alert_history : list nat;
  notification_channels : list string;
  alert_rules : gmap string Rule
}.

Definition __init__ : AlertManager := {|
  objects := ∅;
  next_object := 0;
  active_alerts := ∅;
  alert_history := [];
  notification_channels := ["webhook"; "email"; "slack"];
  alert_rules :=
    <["cpu_high" := {| threshold := 80; duration := 300; rule_severity := "warning" |}]>
   (<["cpu_critical" := {| threshold := 95; duration := 60; rule_severity := "critical" |}]>
   (<["memory_high" := {| threshold := 85; duration := 300; rule_severity := "warning" |}]>
   (<["memory_critical" := {| threshold := 95; duration := 60; rule_severity := "critical" |}]>
   (<["disk_critical" := {| threshold := 90; duration := 0; rule_severity := "critical" |}]> ∅))))
|}.

Definition with_state (self : AlertManager)
    (objs : gmap nat Alert) (next : nat) (act : gmap string nat) (hist : list nat)
    : AlertManager := {|
  objects := objs;
  next_object := next;
  active_alerts := act;
  alert_history := hist;
  notification_channels := notification_channels self;
  alert_rules := alert_rules self
|}.

(** [self.active_alerts[alert_id]['last_seen'] = now; ...['count'] += 1] *)
Definition bump (now : Z) (a : Alert) : Alert := {|
  id := id a; type := type a; severity := severity a;
  description := description a; first_seen := first_seen a;
  last_seen := now; count := (count a + 1)%Z; status := status a;
  agent_id := agent_id a; suggested_action := suggested_action a;
  resolved_at := resolved_at a
|}.

(** [...['status'] = 'resolved'; ...['resolved_at'] = now] *)
Definition mark_resolved (now : Z) (a : Alert) : Alert := {|
  id := id a; type := type a; severity := severity a;
  description := description a; first_seen := first_seen a;
  last_seen := last_seen a; count := count a; status := resolved;
  agent_id := agent_id a; suggested_action := suggested_action a;
  resolved_at := Some now
|}.

Definition make_alert_id (ty : string) (alert_data : AlertData) : string :=
  ty +:+ "_" +:+ default "unknown" (ad_agent_id alert_data).

(** [process_alert].  [now] and [now'] are the successive clock readings.
    The result is the reference to the alert dict the method returns, or
    [None] for the empty dict of the handler, which a missing [type] key
    leads to.  [_send_notifications] only writes to the log and is left
    out.  A reference held by the manager always denotes an object: the
    branch for a reference without object is there for totality, here and
    below. *)
Definition process_alert (now now' : Z) (alert_data : AlertData)
    (self : AlertManager) : AlertManager * option nat :=
  match ad_type alert_data with
  | None => (self, None)
  | Some ty =>
    let alert_id := make_alert_id ty alert_data in
    match active_alerts self !! alert_id with
    | Some r =>
      match objects self !! r with
      | Some a =>
        (with_state self (<[r := bump now a]> (objects self)) (next_object self)
                    (active_alerts self) (alert_history self), Some r)
      | None => (self, None)
      end
    | None =>
      let a := {|
        id := alert_id;
        type := ty;
        severity := default "medium" (ad_severity alert_data);
        description := default [] (ad_description alert_data);
        first_seen := now;
        last_seen := now';
        count := 1;
        status := active;
        agent_id := ad_agent_id alert_data;
        suggested_action := ad_suggested_action alert_data;
        resolved_at := None
      |} in
      let r := next_object self in
      let c := S r in
      (with_state self (<[c := a]> (<[r := a]> (objects self))) (S c)
                  (<[alert_id := r]> (active_alerts self))
                  (alert_history self ++ [c]), Some r)
    end
  end.

(** [resolve_alert] *)
Definition resolve_alert (now : Z) (alert_id : string)
    (self : AlertManager) : AlertManager * bool :=
  match active_alerts self !! alert_id with
  | Some r =>
    match objects self !! r with
    | Some a =>
      (with_state self (<[r := mark_resolved now a]> (objects self))
                  (next_object self)
                  (delete alert_id (active_alerts self))
                  (alert_history self), true)
    | None => (self, false)
    end
  | None => (self, false)
  end.

Definition deref (self : AlertManager) (refs : list nat) : list Alert :=
  omap (λ r, objects self !! r) refs.

(** [get_active_alerts] *)
Definition get_active_alerts (self : AlertManager) : list Alert :=
  deref self (map_to_list (active_alerts self)).*2.

(** [get_alert_history]; the default [limit] is 100. *)
Definition get_alert_history (limit : Z) (self : AlertManager) : list Alert :=
  deref self (slice_from (- limit) (alert_history self)).

Definition hours (h : Z) : Z := (h * 3600 * 1000000)%Z.

(** The test of the loop of [cleanup_old_alerts]. *)
Definition expired (now cutoff_time : Z) (a : Alert) : bool :=
  match status a with
  | resolved => (default now (resolved_at a) <? cutoff_time)%Z
  | active => false
  end.

(** [cleanup_old_alerts]: the first loop collects the keys, the second
    deletes them. *)
Definition cleanup_old_alerts (now : Z) (self : AlertManager) : AlertManager :=
  let cutoff_time := (now - hours 24)%Z in
  let alerts_to_remove :=
    omap (λ kr : string * nat,
            match objects self !! kr.2 with
            | Some a => if expired now cutoff_time a then Some kr.1 else None
            | None => None
            end)
         (map_to_list (active_alerts self)) in
  with_state self (objects self) (next_object self)
             (foldl (λ m k, delete k m) (active_alerts self) alerts_to_remove)
             (alert_history self).

(** The states the manager can be in. *)
Inductive step : AlertManager → AlertManager → Prop :=
  | step_process now now' d s : step s (process_alert now now' d s).1
  | step_resolve now k s : step s (resolve_alert now k s).1
  | step_cleanup now s : step s (cleanup_old_alerts now s).

Definition reachable (s : AlertManager) : Prop := rtc step __init__ s.

(** Every alert the manager holds, in [active_alerts] or in
    [alert_history]. *)
Definition stored (s : AlertManager) (a : Alert) : Prop :=
  (∃ k r, active_alerts s !! k = Some r ∧ objects s !! r = Some a)
  ∨ (∃ r, r ∈ alert_history s ∧ objects s !! r = Some a).

(** A resolved alert whose [resolved_at] is more than 24 hours before
    [now]. *)
Definition overdue (now : Z) (a : Alert) : Prop :=
  status a = resolved ∧ ∃ t, resolved_at a = Some t ∧ (t < now - hours 24)%Z.

(** The shape of the reachable states: the references held are allocated,
    an active alert is filed under its own [id], and no entry of
    [alert_history] is aliased by [active_alerts]. *)
Record wf (s : AlertManager) : Prop := {
  wf_active : ∀ k r, active_alerts s !! k = Some r →
    r < next_object s ∧
    ∃ a, objects s !! r = Some a ∧ status a = active ∧ id a = k;
  wf_history : ∀ r, r ∈ alert_history s →
    r < next_object s ∧
    ∃ a, objects s !! r = Some a ∧ status a = active ∧ count a = 1%Z ∧
         resolved_at a = None;
  wf_separate : ∀ k r, active_alerts s !! k = Some r → r ∉ alert_history s
}.

(** What also holds of the active alerts of a reachable state. *)
Definition active_ok (s : AlertManager) : Prop :=
  ∀ k r a, active_alerts s !! k = Some r → objects s !! r = Some a →
    (1 ≤ count a)%Z ∧ resolved_at a = None.

(** Successive calls of [process_alert], each with its two clock
    readings. *)
Definition process_all (inputs : list (Z * Z * AlertData)) (s : AlertManager)
    : AlertManager :=
  foldl (λ s i, (process_alert i.1.1 i.1.2 i.2 s).1) s inputs.

End alert_manager.

(** ** The anomaly engine *)

Module ai_engine.

(** A snapshot ([metrics_data]): the nested groups [cpu], [memory], [disk]
    and [network], each a mapping from field names to numbers.  The other
    keys of the decoded message are not read by the engine. *)
Abbreviation Metrics := (gmap string (gmap string Q)).

(** [group.get(field, 0)] *)
Definition get (group : gmap string Q) (field : string) : Q :=
  default 0%Q (group !! field).

(** An entry of [historical_data]. *)
Record Entry := { timestamp : Z; data : Metrics }.

(** An anomaly dict; [None] is an absent key. *)
Record Finding := {
  type : string;
  severity : string;
  score : option Q;
  value : option Q;
  threshold : option Q;
  description : Text;
  suggested_action : string
}.

Record Prediction := {
  time_to_failure : Z;
  confidence : Q;
  current_usage : Q;
  trend : Q
}.

Record Predictions := {
  disk_full_prediction : option Prediction;
  memory_exhaustion_prediction : option Prediction;
  cpu_overload_prediction : option Prediction
}.

(** What the engine uses of scikit-learn.  The estimators are mutable
    objects: a fitting call returns the object as it is left, together with
    its result, [None] (or [false]) when it raises.  [fit_transform] takes
    the rows that [numpy.array] is given, which raises for rows of unequal
    lengths.  The other calls take and return the single row of a
    [(1, n)] array. *)
Class SkLearn := {
  StandardScaler : Type;
  IsolationForest : Type;
  new_StandardScaler : StandardScaler;
  new_IsolationForest (contamination : Q) (random_state : Z) (n_estimators : nat)
    : IsolationForest;
  fit_transform : StandardScaler → list (list Q) → StandardScaler * option (list (list Q));
  transform : StandardScaler → list Q → option (list Q);
  fit : IsolationForest → list (list Q) → IsolationForest * bool;
  decision_function : IsolationForest → list Q → option Q;
  predict : IsolationForest → list Q → option Z
}.

(** What the engine uses of numpy's curve fitting:
    [numpy.polyfit(numpy.arange(len(y)), y, 1)[0]], the slope of the line
    fitted to [y].  It is the float that the library returns, which is the
    least-squares slope only up to rounding, so its value is left open. *)
Class Numpy := {
  polyfit1_slope : list Q → Q
}.

(** [bool(a)] for a numpy array [a] of shape [(1, n)]: an array of more than
    one element has no truth value and raises [ValueError]. *)
Definition array_bool (a : list Q) : option bool :=
  match a with
  | [] => Some false
  | [x] => Some (negb (Qeq_bool x 0))
  | _ => None
  end.

(** [_extract_system_features]; the result is the row of the [(1, n)] array. *)
Definition _extract_system_features (metrics_data : Metrics) : option (list Q) :=
  let features := [] in
  let features :=
    match metrics_data !! "cpu" with
    | Some cpu_data =>
      features ++ [get cpu_data "usage_percent";
                   get cpu_data "load_avg_1m";
                   get cpu_data "load_avg_5m";
                   get cpu_data "context_switches"]
    | None => features
    end in
  let features :=
    match metrics_data !! "memory" with
    | Some mem_data =>
      features ++ [get mem_data "usage_percent";
                   get mem_data "available_mb";
                   get mem_data "swap_usage_percent"]
    | None => features
    end in
  let features :=
    match metrics_data !! "disk" with
    | Some disk_data =>
      features ++ [get disk_data "usage_percent";
                   get disk_data "read_bytes_per_sec";
                   get disk_data "write_bytes_per_sec";
                   get disk_data "io_wait_percent"]
    | None => features
    end in
  match features with
  | [] => None
  | _ => Some features
  end.

(** [_extract_network_features] *)
Definition _extract_network_features (metrics_data : Metrics) : option (list Q) :=
  let features := [] in
  let features :=
    match metrics_data !! "network" with
    | Some net_data =>
      features ++ [get net_data "latency_ms";
                   get net_data "packet_loss_percent";
                   get net_data "bandwidth_usage_percent";
                   get net_data "connections_count";
                   get net_data "bytes_sent_per_sec";
                   get net_data "bytes_recv_per_sec"]
    | None => features
    end in
  match features with
  | [] => None
  | _ => Some features
  end.

Section engine.
Context `{ML : SkLearn} `{NP : Numpy}.

Record AIEngine := {
  anomaly_models : gmap string IsolationForest;
  scalers : gmap string StandardScaler;
  historical_data : deque Entry;
  thresholds : gmap string Q;
  patterns : gmap string Q;
  initialized : bool
}.

Definition __init__ : AIEngine := {|
  anomaly_models := ∅;
  scalers := ∅;
  historical_data := Deque 1000 [];
  thresholds :=
    <["cpu_usage" := 80%Q]>
   (<["memory_usage" := 85%Q]>
   (<["disk_usage" := 90%Q]>
   (<["network_latency" := 200%Q]> ∅)));
  patterns := ∅;
  initialized := false
|}.

(** [initialize]; [_load_models] does nothing. *)
Definition initialize (self : AIEngine) : AIEngine := {|
  anomaly_models :=
    <["system_metrics" := new_IsolationForest 0.1 42 100]>
   (<["network_metrics" := new_IsolationForest 0.05 42 50]> ∅);
  scalers :=
    <["system_metrics" := new_StandardScaler]>
   (<["network_metrics" := new_StandardScaler]> ∅);
  historical_data := historical_data self;
  thresholds := thresholds self;
  patterns := patterns self;
  initialized := true
|}.

Definition set_scaler (name : string) (sc : StandardScaler) (self : AIEngine)
    : AIEngine := {|
  anomaly_models := anomaly_models self;
  scalers := <[name := sc]> (scalers self);
  historical_data := historical_data self;
  thresholds := thresholds self;
  patterns := patterns self;
  initialized := initialized self
|}.

Definition set_model (name : string) (m : IsolationForest) (self : AIEngine)
    : AIEngine := {|
  anomaly_models := <[name := m]> (anomaly_models self);
  scalers := scalers self;
  historical_data := historical_data self;
  thresholds := thresholds self;
  patterns := patterns self;
  initialized := initialized self
|}.

Definition append_history (entry : Entry) (self : AIEngine) : AIEngine := {|
  anomaly_models := anomaly_models self;
  scalers := scalers self;
  historical_data := deque_append entry (historical_data self);
  thresholds := thresholds self;
  patterns := patterns self;
  initialized := initialized self
|}.

(** [self.scalers[name].fit_transform(rows)]: the scaler object is looked up
    (a missing key raises) and left as the call leaves it. *)
Definition scaler_fit_transform (name : string) (rows : list (list Q))
    : Exn AIEngine (list (list Q)) :=
  let* sc := (λ self, lift (scalers self !! name) self) in
  let r := fit_transform sc rows in
  let* _ := modify (set_scaler name (fst r)) in
  lift (snd r).

(** [self.anomaly_models[name].fit(rows)] *)
Definition model_fit (name : string) (rows : list (list Q)) : Exn AIEngine unit :=
  let* m := (λ self, lift (anomaly_models self !! name) self) in
  let r := fit m rows in
  let* _ := modify (set_model name (fst r)) in
  if snd r then ret tt else lift None.

(** [self.scalers[name].transform(row)] *)
Definition scaler_transform (name : string) (row : list Q) : Exn AIEngine (list Q) :=
  let* sc := (λ self, lift (scalers self !! name) self) in
  lift (transform sc row).

(** [self.anomaly_models[name].decision_function(row)[0]] *)
Definition model_decision_function (name : string) (row : list Q) : Exn AIEngine Q :=
  let* m := (λ self, lift (anomaly_models self !! name) self) in
  lift (decision_function m row).

(** [self.anomaly_models[name].predict(row)[0]] *)
Definition model_predict (name : string) (row : list Q) : Exn AIEngine Z :=
  let* m := (λ self, lift (anomaly_models self !! name) self) in
  lift (predict m row).

(** [_detect_system_anomalies] *)
Definition _detect_system_anomalies (features : list Q)
    : AIEngine → AIEngine * list Finding :=
  try_except
    (let* history := gets (λ self, items (historical_data self)) in
     if 50 <? length history then
       let training_features :=
         omap (λ entry, _extract_system_features (data entry)) (last_n 50 history) in
       if 10 <? length training_features then
         let* scaled_data := scaler_fit_transform "system_metrics" training_features in
         let* _ := model_fit "system_metrics" scaled_data in
         let* scaled_features := scaler_transform "system_metrics" features in
         let* anomaly_score := model_decision_function "system_metrics" scaled_features in
         let* is_anomaly := model_predict "system_metrics" scaled_features in
         if (is_anomaly =? -1)%Z then
           ret [{| type := "system_anomaly";
                   severity := if Qltb anomaly_score (-0.5) then "high" else "medium";
                   score := Some anomaly_score;
                   value := None;
                   threshold := None;
                   description := [Lit "Unusual system behavior detected by ML model"];
                   suggested_action := "investigate_system_resources" |}]
         else ret []
       else ret []
     else ret [])
    [].

(** [_detect_network_anomalies] *)
Definition _detect_network_anomalies (features : list Q)
    : AIEngine → AIEngine * list Finding :=
  try_except
    (let* history := gets (λ self, items (historical_data self)) in
     if 30 <? length history then
       let training_features :=
         omap (λ entry, _extract_network_features (data entry)) (last_n 30 history) in
       if 10 <? length training_features then
         let* scaled_data := scaler_fit_transform "network_metrics" training_features in
         let* _ := model_fit "network_metrics" scaled_data in
         let* scaled_features := scaler_transform "network_metrics" features in
         let* anomaly_score := model_decision_function "network_metrics" scaled_features in
         let* is_anomaly := model_predict "network_metrics" scaled_features in
         if (is_anomaly =? -1)%Z then
           ret [{| type := "network_anomaly";
                   severity := if Qltb anomaly_score (-0.3) then "high" else "medium";
                   score := Some anomaly_score;
                   value := None;
                   threshold := None;
                   description := [Lit "Unusual network behavior detected"];
                   suggested_action := "check_network_connectivity" |}]
         else ret []
       else ret []
     else ret [])
    [].

(** [self.thresholds[name]]; a missing key raises. *)
Definition threshold_of (self : AIEngine) (name : string) : Exn (list Finding) Q :=
  lift (thresholds self !! name).

(** [anomalies.append(f)] *)
Definition append (f : Finding) : Exn (list Finding) unit :=
  modify (λ anomalies, anomalies ++ [f]).

(** [_detect_threshold_anomalies].  The list [anomalies] is the state of the
    body; the handler only logs, so that a raised exception ends the body
    and the list as it stands is returned. *)
Definition _detect_threshold_anomalies (metrics_data : Metrics) (self : AIEngine)
    : list Finding :=
  fst
    ((let* _ :=
        match metrics_data !! "cpu" with
        | Some cpu =>
          let cpu_usage := get cpu "usage_percent" in
          let* limit := threshold_of self "cpu_usage" in
          if Qltb limit cpu_usage then
            let* shown := threshold_of self "cpu_usage" in
            append {| type := "cpu_threshold_breach";
                      severity := if Qltb 95 cpu_usage then "critical" else "high";
                      score := None;
                      value := Some cpu_usage;
                      threshold := Some shown;
                      description := [Lit "CPU usage "; Num cpu_usage;
                                      Lit "% exceeds threshold"];
                      suggested_action := "identify_cpu_intensive_processes" |}
          else ret tt
        | None => ret tt
        end in
      let* _ :=
        match metrics_data !! "memory" with
        | Some memory =>
          let mem_usage := get memory "usage_percent" in
          let* limit := threshold_of self "memory_usage" in
          if Qltb limit mem_usage then
            let* shown := threshold_of self "memory_usage" in
            append {| type := "memory_threshold_breach";
                      severity := if Qltb 95 mem_usage then "critical" else "high";
                      score := None;
                      value := Some mem_usage;
                      threshold := Some shown;
                      description := [Lit "Memory usage "; Num mem_usage;
                                      Lit "% exceeds threshold"];
                      suggested_action := "free_memory_resources" |}
          else ret tt
        | None => ret tt
        end in
      let* _ :=
        match metrics_data !! "disk" with
        | Some disk =>
          let disk_usage := get disk "usage_percent" in
          let* limit := threshold_of self "disk_usage" in
          if Qltb limit disk_usage then
            let* shown := threshold_of self "disk_usage" in
            append {| type := "disk_threshold_breach";
                      severity := if Qltb 98 disk_usage then "critical" else "high";
                      score := None;
                      value := Some disk_usage;
                      threshold := Some shown;
                      description := [Lit "Disk usage "; Num disk_usage;
                                      Lit "% exceeds threshold"];
                      suggested_action := "cleanup_disk_space" |}
          else ret tt
        | None => ret tt
        end in
      match metrics_data !! "network" with
      | Some network =>
        let latency := get network "latency_ms" in
        let* limit := threshold_of self "network_latency" in
        if Qltb limit latency then
          let* shown := threshold_of self "network_latency" in
          append {| type := "network_latency_high";
                    severity := "medium";
                    score := None;
                    value := Some latency;
                    threshold := Some shown;
                    description := [Lit "Network latency "; Num latency;
                                    Lit "ms exceeds threshold"];
                    suggested_action := "check_network_connectivity" |}
        else ret tt
      | None => ret tt
      end) []).

(** The values [entry['data'][group].get('usage_percent', 0)] of the entries
    that have the group, in the order of the entries. *)
Definition usage_values (group : string) (entries : list Entry) : list Q :=
  omap (λ entry, (λ g, get g "usage_percent") <$> data entry !! group) entries.

(** [_detect_pattern_anomalies].  The argument is not read; the list
    [timestamps] that the source fills is not read either and is left out.
    No step of the body raises. *)
Definition _detect_pattern_anomalies (metrics_data : Metrics) (self : AIEngine)
    : list Finding :=
  let anomalies := [] in
  let history := items (historical_data self) in
  if length history <? 20 then anomalies
  else
    let cpu_values := usage_values "cpu" (last_n 20 history) in
    let anomalies :=
      if 15 <=? length cpu_values then
        let recent_avg := mean (last_n 5 cpu_values) in
        let older_avg := mean (slice_neg 15 10 cpu_values) in
        if Qltb (older_avg + 30) recent_avg then
          anomalies ++
          [{| type := "cpu_trend_anomaly";
              severity := "high";
              score := None;
              value := None;
              threshold := None;
              description := [Lit "Rapid CPU increase detected: "; Num1f older_avg;
                              Lit "% → "; Num1f recent_avg; Lit "%"];
              suggested_action := "investigate_cpu_spike" |}]
        else anomalies
      else anomalies in
    let memory_values := usage_values "memory" (last_n 15 history) in
    let anomalies :=
      if 10 <=? length memory_values then
        let slope := polyfit1_slope memory_values in
        if Qltb 2 slope then
          anomalies ++
          [{| type := "memory_leak_pattern";
              severity := "high";
              score := None;
              value := None;
              threshold := None;
              description := [Lit "Potential memory leak detected (trend: +";
                              Num1f slope; Lit "% per interval)"];
              suggested_action := "investigate_memory_leak" |}]
        else anomalies
      else anomalies in
    anomalies.

(** [min(a, b)] *)
Definition py_min (a b : Q) : Q := if Qltb b a then b else a.

(** [l[-1]] of a list that is not empty. *)
Definition last_value (l : list Q) : Q := default 0%Q (last l).

(** [predict_failure].  No step of the body raises, so the handler's empty
    dict is never the result. *)
Definition predict_failure (metrics_data : Metrics) (self : AIEngine) : Predictions :=
  let history := items (historical_data self) in
  if length history <? 10 then
    {| disk_full_prediction := None;
       memory_exhaustion_prediction := None;
       cpu_overload_prediction := None |}
  else
    let disk_full :=
      match metrics_data !! "disk" with
      | Some _ =>
        let disk_usage_history := usage_values "disk" (last_n 10 history) in
        if 5 <=? length disk_usage_history then
          let slope := polyfit1_slope disk_usage_history in
          let current_usage := last_value disk_usage_history in
          if Qltb 0.1 slope then
            let time_to_full := ((100 - current_usage) / slope)%Q in
            if Qltb time_to_full 100 then
              Some {| time_to_failure := Qtrunc time_to_full;
                      confidence := py_min 0.9 (slope * 10);
                      current_usage := current_usage;
                      trend := slope |}
            else None
          else None
        else None
      | None => None
      end in
    let memory_exhaustion :=
      match metrics_data !! "memory" with
      | Some _ =>
        let memory_usage_history := usage_values "memory" (last_n 10 history) in
        if 5 <=? length memory_usage_history then
          let slope := polyfit1_slope memory_usage_history in
          let current_usage := last_value memory_usage_history in
          if Qltb 0.5 slope then
            let time_to_exhaustion := ((95 - current_usage) / slope)%Q in
            if Qltb time_to_exhaustion 50 then
              Some {| time_to_failure := Qtrunc time_to_exhaustion;
                      confidence := py_min 0.85 (slope * 5);
                      current_usage := current_usage;
                      trend := slope |}
            else None
          else None
        else None
      | None => None
      end in
    {| disk_full_prediction := disk_full;
       memory_exhaustion_prediction := memory_exhaustion;
       cpu_overload_prediction := None |}.

(** [if features: anomalies.extend(await detector(features))], where
    [features] is [None] or an array, whose truth value may raise. *)
Definition run_if_truthy (features : option (list Q))
    (detector : list Q → AIEngine → AIEngine * list Finding)
    (anomalies : list Finding) : Exn AIEngine (list Finding) :=
  match features with
  | Some a =>
    let* b := lift (array_bool a) in
    if b : bool then
      let* found := call (detector a) in
      ret (anomalies ++ found)
    else ret anomalies
  | None => ret anomalies
  end.

(** [detect_anomalies] *)
Definition detect_anomalies (now : Z) (metrics_data : Metrics) (self : AIEngine)
    : AIEngine * list Finding :=
  if negb (initialized self) then (self, [])
  else
    try_except
      (let anomalies := [] in
       let* _ := modify (append_history {| timestamp := now; data := metrics_data |}) in
       let system_features := _extract_system_features metrics_data in
       let* anomalies :=
         run_if_truthy system_features _detect_system_anomalies anomalies in
       let network_features := _extract_network_features metrics_data in
       let* anomalies :=
         run_if_truthy network_features _detect_network_anomalies anomalies in
       let* threshold_anomalies := gets (_detect_threshold_anomalies metrics_data) in
       let anomalies := anomalies ++ threshold_anomalies in
       let* pattern_anomalies := gets (_detect_pattern_anomalies metrics_data) in
       let anomalies := anomalies ++ pattern_anomalies in
       ret anomalies)
      [] self.

(** The engine after the snapshots [inputs], each with its clock reading,
    have gone through [detect_anomalies] in order. *)
Definition ingest (inputs : list (Z * Metrics)) (self : AIEngine) : AIEngine :=
  foldl (λ s i, fst (detect_anomalies (fst i) (snd i) s)) self inputs.

(** [max(a, b)] *)
Definition py_max (a b : Q) : Q := if Qltb a b then b else a.

(** One entry of [critical_issues] or [warnings]; [None] is an absent
    key. *)
Record Issue := {
  component : string;
  issue : string;
  issue_value : option Q;
  impact : option string
}.

(** The dict returned by [system_health_check]; the keys [warnings],
    [overall_score] and [component_scores] are absent from the answer for
    an empty buffer. *)
Record Health := {
  status : string;
  critical_issues : list Issue;
  warnings : option (list Issue);
  overall_score : option Z;
  component_scores : option (gmap string Q)
}.

(** The variable [health_status] while it is filled. *)
Record HealthStatus := {
  hs_critical_issues : list Issue;
  hs_warnings : list Issue;
  hs_overall_score : Z;
  hs_component_scores : gmap string Q
}.

(** One of the three blocks of [system_health_check]: the group [name] of
    the latest snapshot against its critical and warning limits, with the
    texts and the penalties of the block. *)
Definition check_component (latest_data : Metrics) (name : string)
    (critical_limit : Q) (critical_issue critical_impact : string) (critical_penalty : Z)
    (warning_limit : Q) (warning_issue : string) (warning_penalty : Z)
    (h : HealthStatus) : HealthStatus :=
  match latest_data !! name with
  | Some group =>
    let usage := get group "usage_percent" in
    let h :=
      if Qltb critical_limit usage then
        {| hs_critical_issues :=
             hs_critical_issues h ++
             [{| component := name; issue := critical_issue;
                 issue_value := Some usage; impact := Some critical_impact |}];
           hs_warnings := hs_warnings h;
           hs_overall_score := (hs_overall_score h - critical_penalty)%Z;
           hs_component_scores := hs_component_scores h |}
      else if Qltb warning_limit usage then
        {| hs_critical_issues := hs_critical_issues h;
           hs_warnings :=
             hs_warnings h ++
             [{| component := name; issue := warning_issue;
                 issue_value := Some usage; impact := None |}];
           hs_overall_score := (hs_overall_score h - warning_penalty)%Z;
           hs_component_scores := hs_component_scores h |}
      else h in
    {| hs_critical_issues := hs_critical_issues h;
       hs_warnings := hs_warnings h;
       hs_overall_score := hs_overall_score h;
       hs_component_scores :=
         <[name := py_max 0 (100 - usage)]> (hs_component_scores h) |}
  | None => h
  end.

(** [system_health_check].  No step of the body raises, so the handler's
    answer with status [error] is never the result. *)
Definition system_health_check (self : AIEngine) : Health :=
  match last (items (historical_data self)) with
  | None =>
    {| status := "insufficient_data"; critical_issues := [];
       warnings := None; overall_score := None; component_scores := None |}
  | Some entry =>
    let latest_data := data entry in
    let h := {| hs_critical_issues := []; hs_warnings := [];
                hs_overall_score := 100; hs_component_scores := ∅ |} in
    let h := check_component latest_data "cpu"
               95 "Critical CPU usage" "System may become unresponsive" 30
               80 "High CPU usage" 10 h in
    let h := check_component latest_data "memory"
               95 "Critical memory usage" "Risk of out-of-memory errors" 25
               85 "High memory usage" 10 h in
    let h := check_component latest_data "disk"
               98 "Critical disk usage" "System may fail to write data" 35
               90 "High disk usage" 15 h in
    {| status :=
         match hs_critical_issues h, hs_warnings h with
         | _ :: _, _ => "critical"
         | [], _ :: _ => "warning"
         | [], [] => "healthy"
         end;
       critical_issues := hs_critical_issues h;
       warnings := Some (hs_warnings h);
       overall_score := Some (hs_overall_score h);
       component_scores := Some (hs_component_scores h) |}
  end.

(** What the detectors leave alone: everything but the estimators. *)
Definition same_frame (s s' : AIEngine) : Prop :=
  historical_data s' = historical_data s ∧ thresholds s' = thresholds s ∧
  patterns s' = patterns s ∧ initialized s' = initialized s.

Definition keeps_frame {A} (m : Exn AIEngine A) : Prop :=
  ∀ s, same_frame s (fst (m s)).

(** The entry that [detect_anomalies] appends for an input. *)
Definition entry_of (i : Z * Metrics) : Entry :=
  {| timestamp := fst i; data := snd i |}.

End engine.

(** An entry of [remediation_actions]. *)
Record Remediation := {
  actions : list string;
  scripts : list string;
  priority : string
}.

Definition remediation_actions : gmap string Remediation :=
  <["cpu_threshold_breach" :=
      {| actions := ["kill_high_cpu_processes"; "restart_services"; "scale_horizontally"];
         scripts := ["kill_top_cpu_process.sh"; "restart_critical_services.sh"];
         priority := "high" |}]>
 (<["memory_threshold_breach" :=
      {| actions := ["clear_cache"; "restart_memory_intensive_services"; "enable_swap"];
         scripts := ["clear_system_cache.sh"; "restart_services.sh"];
         priority := "high" |}]>
 (<["disk_threshold_breach" :=
      {| actions := ["cleanup_temp_files"; "rotate_logs"; "compress_old_files"];
         scripts := ["disk_cleanup.sh"; "log_rotation.sh"];
         priority := "critical" |}]>
 (<["network_latency_high" :=
      {| actions := ["restart_network_services"; "flush_dns_cache"; "check_firewall_rules"];
         scripts := ["network_reset.sh"; "dns_flush.sh"];
         priority := "medium" |}]>
 (<["memory_leak_pattern" :=
      {| actions := ["restart_suspected_services"; "dump_memory_analysis";
                     "enable_memory_monitoring"];
         scripts := ["restart_leaky_services.sh"; "memory_dump.sh"];
         priority := "high" |}]> ∅)))).

Definition manual_investigation : Remediation :=
  {| actions := ["manual_investigation"]; scripts := []; priority := "low" |}.

(** [suggest_remediation].  Of the anomaly dict only the key [type] is
    read: the argument is its value, [None] when the key is absent. *)
Definition suggest_remediation (anomaly_type : option string) : Remediation :=
  default manual_investigation
          (remediation_actions !! default "unknown" anomaly_type).

(** The fields of each group in the order in which the extractors read
    them. *)
Definition cpu_fields : list string :=
  ["usage_percent"; "load_avg_1m"; "load_avg_5m"; "context_switches"].
Definition memory_fields : list string :=
  ["usage_percent"; "available_mb"; "swap_usage_percent"].
Definition disk_fields : list string :=
  ["usage_percent"; "read_bytes_per_sec"; "write_bytes_per_sec"; "io_wait_percent"].
Definition network_fields : list string :=
  ["latency_ms"; "packet_loss_percent"; "bandwidth_usage_percent";
   "connections_count"; "bytes_sent_per_sec"; "bytes_recv_per_sec"].

(** The part of a feature vector that a group contributes: its fields in
    order, 0 for a missing field, and nothing when the group is absent. *)
Definition block (metrics_data : Metrics) (group : string) (fields : list string)
    : list Q :=
  match metrics_data !! group with
  | Some g => get g <$> fields
  | None => []
  end.

(** The finding of one metric of the threshold detector: [mk u] when the
    group is present and its reading [u] exceeds [limit]. *)
Definition breach (metrics_data : Metrics) (group field : string) (limit : Q)
    (mk : Q → Finding) : list Finding :=
  match metrics_data !! group with
  | Some g => if Qltb limit (get g field) then [mk (get g field)] else []
  | None => []
  end.

(** The findings of a given type. *)
Definition of_type (t : string) (l : list Finding) : list Finding :=
  filter (λ f, type f = t) l.

(** ** Notions used in the statements *)

(** The types that the threshold detector can emit, whatever the limits. *)
Definition threshold_types : list string :=
  ["cpu_threshold_breach"; "memory_threshold_breach"; "disk_threshold_breach";
   "network_latency_high"].

Definition typed (l : list Finding) : Prop :=
  Forall (λ f, type f ∈ threshold_types) l.

Definition keeps_typed {A} (m : Exn (list Finding) A) : Prop :=
  ∀ l, typed l → typed (fst (m l)).

(** The component that a threshold finding is about. *)
Definition metric_of (t : string) : option string :=
  if decide (t = "cpu_threshold_breach") then Some "cpu"
  else if decide (t = "memory_threshold_breach") then Some "memory"
  else if decide (t = "disk_threshold_breach") then Some "disk"
  else None.

(** The components of the threshold findings of a given severity. *)
Definition metrics_with (sev : string) (l : list Finding) : list string :=
  omap (λ f, if decide (severity f = sev) then metric_of (type f) else None) l.

(** The findings of the four metrics of the threshold detector under the
    limits of [__init__]. *)
Definition cpu_breach_finding (v : Q) : Finding :=
  {| type := "cpu_threshold_breach";
     severity := if Qltb 95 v then "critical" else "high";
     score := None; value := Some v; threshold := Some 80%Q;
     description := [Lit "CPU usage "; Num v; Lit "% exceeds threshold"];
     suggested_action := "identify_cpu_intensive_processes" |}.

Definition memory_breach_finding (v : Q) : Finding :=
  {| type := "memory_threshold_breach";
     severity := if Qltb 95 v then "critical" else "high";
     score := None; value := Some v; threshold := Some 85%Q;
     description := [Lit "Memory usage "; Num v; Lit "% exceeds threshold"];
     suggested_action := "free_memory_resources" |}.

Definition disk_breach_finding (v : Q) : Finding :=
  {| type := "disk_threshold_breach";
     severity := if Qltb 98 v then "critical" else "high";
     score := None; value := Some v; threshold := Some 90%Q;
     description := [Lit "Disk usage "; Num v; Lit "% exceeds threshold"];
     suggested_action := "cleanup_disk_space" |}.

Definition latency_finding (v : Q) : Finding :=
  {| type := "network_latency_high";
     severity := "medium";
     score := None; value := Some v; threshold := Some 200%Q;
     description := [Lit "Network latency "; Num v; Lit "ms exceeds threshold"];
     suggested_action := "check_network_connectivity" |}.

(** The fitted slope of [y] is within [eps] of the least-squares slope. *)
Definition accurate_on `{NP : Numpy} (y : list Q) (eps : Q) : Prop :=
  (least_squares_slope y - eps <= polyfit1_slope y)%Q ∧
  (polyfit1_slope y <= least_squares_slope y + eps)%Q.

(** A series that rises by [d] at every step from [a]. *)
Definition ramp (a d : Q) (n : nat) : list Q :=
  (λ i, (a + d * inject_Z (Z.of_nat i))%Q) <$> seq 0 n.

Definition abscissae (n : nat) : list Q :=
  (λ i, inject_Z (Z.of_nat i)) <$> seq 0 n.

(** ** Example data *)

(** A stand-in for scikit-learn in the examples: the scaler is the
    identity, the score of a row is its first entry and a row is an outlier
    when its score is negative. *)
Definition toy_sklearn : SkLearn := {|
  StandardScaler := unit;
  IsolationForest := unit;
  new_StandardScaler := tt;
  new_IsolationForest := λ _ _ _, tt;
  fit_transform := λ _ rows, (tt, Some rows);
  transform := λ _ row, Some row;
  fit := λ _ _, (tt, true);
  decision_function := λ _ row, Some (default 0%Q (head row));
  predict := λ _ row, Some (if Qltb (default 0%Q (head row)) 0 then (-1)%Z else 1%Z)
|}.

(** A stand-in for numpy's fit in the examples: the slope without
    rounding. *)
Definition exact_numpy : Numpy := {| polyfit1_slope := least_squares_slope |}.

(** Snapshots with one group that has the field [usage_percent], taken at
    the times 0, 1, 2, ... *)
Definition usage_snapshot (group : string) (u : Q) : Metrics :=
  {[ group := {[ "usage_percent" := u ]} ]}.

Definition usage_inputs (group : string) (values : list Q) : list (Z * Metrics) :=
  imap (λ i u, (Z.of_nat i, usage_snapshot group u)) values.

(** 60 values rising linearly from 10 to 70. *)
Definition rising_memory : list Q :=
  (λ i, 10 + 60 * inject_Z (Z.of_nat i) / 59)%Q <$> seq 0 60.

(** The engine after the first [n] of these snapshots, and the memory
    usage of the last 10 of them. *)
Definition after_rising `{ML : SkLearn} `{NP : Numpy} (n : nat) : AIEngine :=
  ingest (usage_inputs "memory" (take n rising_memory)) (initialize __init__).

Definition rising_window (n : nat) : list Q := last_n 10 (take n rising_memory).

(** 20 values that start from 10 and grow by 3 at each step. *)
Definition steady_rise : list Q := ramp 10 3 20.

End ai_engine.

(** ** The connection manager *)

Module connection_manager.

(** Class [ConnectionManager] of [backend/app/main.py].  A websocket is an
    object compared by identity, here a number.  Whether
    [send_text(json.dumps(message))] succeeds on a websocket is the
    parameter [sends] of the operations that send; [accept] is taken to
    succeed.  Each operation is taken on its own, without other coroutines
    running between its steps. *)
Definition WebSocket := nat.

Record ConnectionManager := {
  active_connections : list WebSocket;
  agent_connections : gmap string WebSocket
}.

Definition __init__ : ConnectionManager :=
  {| active_connections := []; agent_connections := ∅ |}.

(** The truth value of [agent_id]: a string that is not empty. *)
Definition truthy (agent_id : option string) : bool :=
  match agent_id with
  | Some s => negb (String.eqb s "")
  | None => false
  end.

(** [l.remove(x)]: the first occurrence goes. *)
Fixpoint remove_first (x : WebSocket) (l : list WebSocket) : list WebSocket :=
  match l with
  | [] => []
  | y :: l => if decide (y = x) then l else y :: remove_first x l
  end.

(** [connect] *)
Definition connect (websocket : WebSocket) (client_type : string)
    (agent_id : option string) (self : ConnectionManager) : ConnectionManager :=
  if String.eqb client_type "agent" && truthy agent_id then
    {| active_connections := active_connections self;
       agent_connections :=
         <[default "" agent_id := websocket]> (agent_connections self) |}
  else
    {| active_connections := active_connections self ++ [websocket];
       agent_connections := agent_connections self |}.

(** [disconnect] *)
Definition disconnect (websocket : WebSocket) (agent_id : option string)
    (self : ConnectionManager) : ConnectionManager :=
  if truthy agent_id && bool_decide (is_Some (agent_connections self !! default "" agent_id)) then
    {| active_connections := active_connections self;
       agent_connections := delete (default "" agent_id) (agent_connections self) |}
  else if bool_decide (websocket ∈ active_connections self) then
    {| active_connections := remove_first websocket (active_connections self);
       agent_connections := agent_connections self |}
  else self.

(** [broadcast_to_dashboards]: the first loop collects the connections on
    which the send fails, the second removes them. *)
Definition broadcast_to_dashboards (sends : WebSocket → bool)
    (self : ConnectionManager) : ConnectionManager :=
  let disconnected := filter (λ c, sends c = false) (active_connections self) in
  {| active_connections :=
       foldl (λ l c, remove_first c l) (active_connections self) disconnected;
     agent_connections := agent_connections self |}.

(** [send_to_agent] *)
Definition send_to_agent (sends : WebSocket → bool) (agent_id : string)
    (self : ConnectionManager) : ConnectionManager * bool :=
  match agent_connections self !! agent_id with
  | Some websocket =>
    if sends websocket then (self, true)
    else ({| active_connections := active_connections self;
             agent_connections := delete agent_id (agent_connections self) |},
          false)
  | None => (self, false)
  end.

End connection_manager.

(** * Properties *)

(** ** Python helpers *)

Lemma last_n_length {A} n (l : list A) : length (last_n n l) = min n (length l).
Proof. unfold last_n. rewrite length_drop. lia. Qed.

Lemma last_n_all {A} n (l : list A) : length l ≤ n → last_n n l = l.
Proof. intros H. unfold last_n. replace (length l - n) with 0 by lia. done. Qed.

Lemma Qltb_lt a b : Qltb a b = true ↔ (a < b)%Q.
Proof.
  unfold Qltb. rewrite negb_true_iff, <- not_true_iff_false, Qle_bool_iff.
  split; [apply Qnot_le_lt | apply Qlt_not_le].
Qed.

Lemma Qltb_ge a b : Qltb a b = false ↔ (b <= a)%Q.
Proof. unfold Qltb. by rewrite negb_false_iff, Qle_bool_iff. Qed.

(** ** The alert manager *)

Module alert_manager_facts.
Import alert_manager.

Lemma foldl_delete_elem (ks : list string) (m : gmap string nat) k :
  k ∈ ks → foldl (λ m k, delete k m) m ks !! k = None.
Proof.
  revert m. induction ks as [|k' ks IH]; intros m Hin.
  - by apply elem_of_nil in Hin.
  - cbn [foldl]. destruct (decide (k ∈ ks)) as [Hks|Hks]; [by apply IH|].
    apply elem_of_cons in Hin as [->|?]; [|done].
    clear IH. revert m. induction ks as [|k'' ks IH]; intros m.
    + apply lookup_delete_eq.
    + cbn [foldl]. rewrite delete_delete. apply IH.
      intros ?. apply Hks. by right.
Qed.

Lemma foldl_delete_Some (ks : list string) (m : gmap string nat) k r :
  foldl (λ m k, delete k m) m ks !! k = Some r → m !! k = Some r ∧ k ∉ ks.
Proof.
  intros H. destruct (decide (k ∈ ks)) as [Hin|Hin].
  - by rewrite foldl_delete_elem in H.
  - split; [|done]. revert m H.
    induction ks as [|k' ks IH]; intros m H; [done|].
    cbn [foldl] in H. apply IH in H.
    + apply lookup_delete_Some in H. tauto.
    + intros ?. apply Hin. by right.
Qed.

Lemma cleanup_active_subset now s k r :
  active_alerts (cleanup_old_alerts now s) !! k = Some r →
  active_alerts s !! k = Some r.
Proof. intros H. by apply foldl_delete_Some in H as [? _]. Qed.

(** The sweep, on any state: no key is left in [active_alerts] whose alert
    is resolved and overdue. *)
Lemma cleanup_active_not_overdue now s k r a :
  active_alerts (cleanup_old_alerts now s) !! k = Some r →
  objects s !! r = Some a →
  ¬ overdue now a.
Proof.
  intros Hk Hr (Hst & t & Ht & Hlt).
  apply foldl_delete_Some in Hk as [Hk Hin]. apply Hin.
  apply list_elem_of_omap. exists (k, r). split.
  - by apply elem_of_map_to_list.
  - simpl. rewrite Hr. unfold expired. rewrite Hst, Ht. simpl.
    by rewrite (proj2 (Z.ltb_lt _ _) Hlt).
Qed.

Lemma wf_init : wf __init__.
Proof.
  split; simpl.
  - intros k r H. by rewrite lookup_empty in H.
  - intros r H. by apply elem_of_nil in H.
  - intros k r H. by rewrite lookup_empty in H.
Qed.

Lemma wf_process_alert now now' d s : wf s → wf (process_alert now now' d s).1.
Proof.
  intros [Ha Hh Hs]. unfold process_alert.
  destruct (ad_type d) as [ty|]; [|by split].
  destruct (active_alerts s !! make_alert_id ty d) as [r0|] eqn:Hk.
  - destruct (objects s !! r0) as [a0|] eqn:Hr0; [|by split].
    destruct (Ha _ _ Hk) as (Hlt0 & a0' & Hr0' & Hst0 & Hid0).
    assert (a0' = a0) as -> by congruence.
    split; simpl.
    + intros k r Hkr. destruct (Ha _ _ Hkr) as (Hlt & a & Hr & Hst & Hid).
      split; [done|]. destruct (decide (r = r0)) as [->|Hne].
      * rewrite lookup_insert_eq. eexists; split; [done|]. simpl.
        split; congruence.
      * rewrite lookup_insert_ne by done. eauto.
    + intros r Hin. destruct (Hh _ Hin) as (Hlt & a & Hr & Hrest).
      split; [done|]. rewrite lookup_insert_ne; [eauto|].
      intros ->. by eapply Hs.
    + done.
  - split; simpl.
    + intros k r. destruct (decide (k = make_alert_id ty d)) as [->|Hne].
      * rewrite lookup_insert_eq. intros [= <-]. split; [lia|].
        rewrite lookup_insert_ne by lia. rewrite lookup_insert_eq.
        eexists; split; [done|]. done.
      * rewrite lookup_insert_ne by done. intros Hkr.
        destruct (Ha _ _ Hkr) as (Hlt & a & Hr & Hst & Hid).
        split; [lia|]. rewrite !lookup_insert_ne by lia. eauto.
    + intros r Hin. apply elem_of_app in Hin as [Hin|Hin].
      * destruct (Hh _ Hin) as (Hlt & a & Hr & Hrest).
        split; [lia|]. rewrite !lookup_insert_ne by lia. eauto.
      * apply list_elem_of_singleton in Hin as ->. split; [lia|].
        rewrite lookup_insert_eq. eexists; split; [done|]. done.
    + intros k r. destruct (decide (k = make_alert_id ty d)) as [->|Hne].
      * rewrite lookup_insert_eq. intros [= <-] Hin.
        apply elem_of_app in Hin as [Hin|Hin].
        -- destruct (Hh _ Hin) as [Hlt _]. lia.
        -- apply list_elem_of_singleton in Hin. lia.
      * rewrite lookup_insert_ne by done. intros Hkr Hin.
        apply elem_of_app in Hin as [Hin|Hin].
        -- by eapply Hs.
        -- apply list_elem_of_singleton in Hin.
           destruct (Ha _ _ Hkr) as [Hlt _]. lia.
Qed.

Lemma wf_resolve_alert now k0 s : wf s → wf (resolve_alert now k0 s).1.
Proof.
  intros [Ha Hh Hs]. unfold resolve_alert.
  destruct (active_alerts s !! k0) as [r0|] eqn:Hk; [|by split].
  destruct (objects s !! r0) as [a0|] eqn:Hr0; [|by split].
  destruct (Ha _ _ Hk) as (Hlt0 & a0' & Hr0' & Hst0 & Hid0).
  assert (a0' = a0) as -> by congruence.
  split; simpl.
  - intros k r Hkr. apply lookup_delete_Some in Hkr as [Hne Hkr].
    destruct (Ha _ _ Hkr) as (Hlt & a & Hr & Hst & Hid).
    split; [done|]. rewrite lookup_insert_ne; [eauto|].
    intros ->. congruence.
  - intros r Hin. destruct (Hh _ Hin) as (Hlt & a & Hr & Hrest).
    split; [done|]. rewrite lookup_insert_ne; [eauto|].
    intros ->. by eapply Hs.
  - intros k r Hkr. apply lookup_delete_Some in Hkr as [Hne Hkr]. eauto.
Qed.

Lemma wf_cleanup_old_alerts now s : wf s → wf (cleanup_old_alerts now s).
Proof.
  intros [Ha Hh Hs]. split.
  - intros k r Hkr. apply cleanup_active_subset in Hkr. by apply Ha.
  - done.
  - intros k r Hkr. apply cleanup_active_subset in Hkr. by eapply Hs.
Qed.

Lemma reachable_wf s : reachable s → wf s.
Proof.
  unfold reachable. intros H.
  eapply (rtc_ind_r wf); [apply wf_init | | exact H].
  intros y z _ Hstep IH.
  destruct Hstep; auto using wf_process_alert, wf_resolve_alert, wf_cleanup_old_alerts.
Qed.

(** In a reachable state every stored alert is active: the alert that
    [resolve_alert] marks is the one it drops. *)
Lemma stored_active s a : wf s → stored s a → status a = active.
Proof.
  intros [Ha Hh Hs] [(k & r & Hk & Hr)|(r & Hin & Hr)].
  - destruct (Ha _ _ Hk) as (_ & a' & Hr' & Hst & _). congruence.
  - destruct (Hh _ Hin) as (_ & a' & Hr' & Hst & _). congruence.
Qed.

Lemma elem_of_deref s refs a :
  a ∈ deref s refs ↔ ∃ r, r ∈ refs ∧ objects s !! r = Some a.
Proof. apply list_elem_of_omap. Qed.

Lemma elem_of_get_active_alerts s a :
  a ∈ get_active_alerts s ↔
  ∃ k r, active_alerts s !! k = Some r ∧ objects s !! r = Some a.
Proof.
  unfold get_active_alerts. rewrite elem_of_deref. split.
  - intros (r & Hin & Hr). apply list_elem_of_fmap in Hin as ([k r'] & -> & Hin).
    apply elem_of_map_to_list in Hin. eauto.
  - intros (k & r & Hk & Hr). exists r. split; [|done].
    apply list_elem_of_fmap. exists (k, r). split; [done|].
    by apply elem_of_map_to_list.
Qed.

Lemma elem_of_get_alert_history limit s a :
  a ∈ get_alert_history limit s → ∃ r, r ∈ alert_history s ∧ objects s !! r = Some a.
Proof.
  unfold get_alert_history, slice_from. rewrite elem_of_deref.
  intros (r & Hin & Hr). exists r. split; [|done].
  apply list_elem_of_lookup_1 in Hin as [i Hi]. rewrite lookup_drop in Hi.
  by eapply list_elem_of_lookup_2.
Qed.

(** What [get_alert_history] shows in a reachable state: copies made when
    the alerts were created, which no later call touches. *)
Lemma history_entries_as_created limit s a :
  reachable s → a ∈ get_alert_history limit s →
  status a = active ∧ count a = 1%Z ∧ resolved_at a = None.
Proof.
  intros Hs Hin. apply reachable_wf in Hs as [_ Hh _].
  apply elem_of_get_alert_history in Hin as (r & Hin & Hr).
  destruct (Hh _ Hin) as (_ & a' & Hr' & ? & ? & ?).
  assert (a' = a) as -> by congruence. done.
Qed.

Lemma reachable_step s s' : reachable s → step s s' → reachable s'.
Proof. unfold reachable. intros. by eapply rtc_r. Qed.

(** The lifecycle of one key from any reachable state in which the key is
    not active: two findings of the key make one active alert with count 2;
    resolving it succeeds and leaves no active alert of that key; the alert
    history holds no resolved alert afterwards. *)
Lemma lifecycle_of_a_key s now1 now1' now2 now2' now3 d1 d2 ty key :
  reachable s →
  ad_type d1 = Some ty → ad_type d2 = Some ty →
  make_alert_id ty d1 = key → make_alert_id ty d2 = key →
  active_alerts s !! key = None →
  let s1 := (process_alert now1 now1' d1 s).1 in
  let s2 := (process_alert now2 now2' d2 s1).1 in
  let res := resolve_alert now3 key s2 in
  (∃ a2, (∀ a, a ∈ get_active_alerts s2 ∧ id a = key ↔ a = a2) ∧
         count a2 = 2%Z ∧ status a2 = active ∧
         first_seen a2 = now1 ∧ last_seen a2 = now2) ∧
  res.2 = true ∧
  (∀ a, a ∈ get_active_alerts res.1 → id a ≠ key) ∧
  (∀ limit a, a ∈ get_alert_history limit res.1 →
     status a = active ∧ count a = 1%Z ∧ resolved_at a = None).
Proof.
  intros Hs Hty1 Hty2 Hk1 Hk2 Hnone s1 s2 res.
  assert (reachable s1) as Hs1 by (eapply reachable_step; [done | constructor]).
  assert (reachable s2) as Hs2 by (eapply reachable_step; [done | constructor]).
  assert (reachable res.1) as Hs3 by (eapply reachable_step; [done | constructor]).
  set (r := next_object s).
  assert (active_alerts s1 !! key = Some r ∧ ∃ a1, objects s1 !! r = Some a1 ∧
          count a1 = 1%Z ∧ first_seen a1 = now1) as (Hact1 & a1 & Hobj1 & Hc1 & Hf1).
  { subst s1. unfold process_alert. rewrite Hty1, Hk1, Hnone. simpl.
    rewrite lookup_insert_eq. split; [done|].
    rewrite lookup_insert_ne by lia. rewrite lookup_insert_eq. eauto. }
  assert (active_alerts s2 !! key = Some r ∧
          objects s2 !! r = Some (bump now2 a1)) as [Hact2 Hobj2].
  { subst s2. unfold process_alert. rewrite Hty2, Hk2, Hact1, Hobj1. simpl.
    by rewrite lookup_insert_eq. }
  assert (res = (with_state s2 (<[r := mark_resolved now3 (bump now2 a1)]> (objects s2))
                   (next_object s2) (delete key (active_alerts s2))
                   (alert_history s2), true)) as Hres.
  { subst res. unfold resolve_alert. by rewrite Hact2, Hobj2. }
  split; [|split; [|split]].
  - exists (bump now2 a1). split; [|simpl; repeat split; [lia|..]].
    + intros a. rewrite elem_of_get_active_alerts. split.
      * intros [(k & r' & Hk & Hr') Hid].
        destruct (wf_active _ (reachable_wf _ Hs2) _ _ Hk) as (_ & a' & Ha' & _ & Hid').
        assert (k = key) as -> by congruence. congruence.
      * intros ->. split; [eauto|].
        destruct (wf_active _ (reachable_wf _ Hs2) _ _ Hact2) as (_ & a' & Ha' & _ & Hid').
        congruence.
    + destruct (wf_active _ (reachable_wf _ Hs1) _ _ Hact1) as (_ & a' & Ha' & Hst & _).
      congruence.
    + done.
  - by rewrite Hres.
  - intros a Hin. apply elem_of_get_active_alerts in Hin as (k & r' & Hk & Hr').
    destruct (wf_active _ (reachable_wf _ Hs3) _ _ Hk) as (_ & a' & Ha' & _ & Hid').
    assert (a' = a) as -> by congruence. rewrite Hid'. intros ->.
    rewrite Hres in Hk. simpl in Hk. by rewrite lookup_delete_eq in Hk.
  - intros limit a. by apply history_entries_as_created.
Qed.

(** C1 (the code departs from the claim).  A finding of type
    [cpu_threshold_breach] from [agent-1] is processed twice and its key is
    then resolved.  The two calls make one active alert with count 2, the
    resolution succeeds and empties the active alerts, but the alert history
    then shows the copy made at creation: status [active], count 1 and no
    [resolved_at], not the resolved alert. *)
Theorem resolved_alert_not_in_history :
  let d := {| ad_type := Some "cpu_threshold_breach";
              ad_agent_id := Some "agent-1";
              ad_severity := Some "high";
              ad_description := Some [Lit "CPU usage "; Num 82; Lit "% exceeds threshold"];
              ad_suggested_action := Some "identify_cpu_intensive_processes" |} in
  let created := {| id := "cpu_threshold_breach_agent-1";
                    type := "cpu_threshold_breach";
                    severity := "high";
                    description := [Lit "CPU usage "; Num 82; Lit "% exceeds threshold"];
                    first_seen := 100; last_seen := 101; count := 1;
                    status := active;
                    agent_id := Some "agent-1";
                    suggested_action := Some "identify_cpu_intensive_processes";
                    resolved_at := None |} in
  let s1 := (process_alert 100 101 d __init__).1 in
  let s2 := (process_alert 200 201 d s1).1 in
  let res := resolve_alert 300 "cpu_threshold_breach_agent-1" s2 in
  get_active_alerts s2 = [bump 200 created] ∧
  res.2 = true ∧
  get_active_alerts res.1 = [] ∧
  get_alert_history 100 res.1 = [created] ∧
  deref res.1 [0] = [mark_resolved 300 (bump 200 created)].
Proof. vm_compute. repeat split; reflexivity. Qed.


(** C9.  [resolve_alert] on a key that is not in [active_alerts] returns
    [False] and changes nothing: the manager, with its active alerts and
    its alert history, is the same afterwards.  Hence a second
    [resolve_alert] on a key, right after a first one, returns [False]. *)
Theorem resolve_alert_unknown_key (s : AlertManager) (now now' : Z) (k : string) :
  (active_alerts s !! k = None → resolve_alert now k s = (s, false)) ∧
  (resolve_alert now' k (resolve_alert now k s).1).2 = false.
Proof.
  split.
  - intros H. unfold resolve_alert. by rewrite H.
  - unfold resolve_alert at 2.
    destruct (active_alerts s !! k) as [r|] eqn:Hk.
    + destruct (objects s !! r) as [a|] eqn:Hr.
      * unfold resolve_alert. simpl. by rewrite lookup_delete_eq.
      * unfold resolve_alert. simpl. by rewrite Hk, Hr.
    + unfold resolve_alert. simpl. by rewrite Hk.
Qed.

Lemma resolve_alert_unknown_key_witness :
  active_alerts __init__ !! "memory_threshold_breach_agent-2" = None ∧
  resolve_alert 7 "memory_threshold_breach_agent-2" __init__ = (__init__, false).
Proof.
  split; [reflexivity|].
  apply (proj1 (resolve_alert_unknown_key __init__ 7 8 "memory_threshold_breach_agent-2")).
  reflexivity.
Defined.

End alert_manager_facts.

(** ** The anomaly engine *)

Module ai_engine_facts.
Import ai_engine.

Section frame.
Context `{ML : SkLearn} `{NP : Numpy}.

Lemma same_frame_refl (s : AIEngine) : same_frame s s.
Proof. by repeat split. Qed.

Lemma same_frame_trans (s1 s2 s3 : AIEngine) :
  same_frame s1 s2 → same_frame s2 s3 → same_frame s1 s3.
Proof. unfold same_frame. intros (?&?&?&?) (?&?&?&?). repeat split; congruence. Qed.

Lemma keeps_ret {A} (a : A) : keeps_frame (ret a).
Proof. intros s. apply same_frame_refl. Qed.

Lemma keeps_lift {A} (o : option A) : keeps_frame (lift o).
Proof. intros s. apply same_frame_refl. Qed.

Lemma keeps_gets {A} (f : AIEngine → A) : keeps_frame (gets f).
Proof. intros s. apply same_frame_refl. Qed.

Lemma keeps_bind {A B} (m : Exn AIEngine A) (k : A → Exn AIEngine B) :
  keeps_frame m → (∀ a, keeps_frame (k a)) → keeps_frame (bind m k).
Proof.
  intros Hm Hk s. unfold bind. specialize (Hm s).
  destruct (m s) as [s' [a|]]; [|done].
  eapply same_frame_trans; [exact Hm | apply Hk].
Qed.

Lemma keeps_lookup {A B} (f : AIEngine → option A) (k : A → Exn AIEngine B) :
  (∀ a, keeps_frame (k a)) →
  keeps_frame (bind (λ self, lift (f self) self) k).
Proof. intros Hk. apply keeps_bind; [|done]. intros s. apply same_frame_refl. Qed.

Lemma keeps_set_scaler name sc : keeps_frame (modify (set_scaler name sc)).
Proof. intros s. by repeat split. Qed.

Lemma keeps_set_model name m : keeps_frame (modify (set_model name m)).
Proof. intros s. by repeat split. Qed.

Lemma keeps_try_except {A} (m : Exn AIEngine A) (h : A) s :
  keeps_frame m → same_frame s (fst (try_except m h s)).
Proof.
  intros Hm. unfold try_except. specialize (Hm s). by destruct (m s) as [s' [a|]].
Qed.

Lemma keeps_call {A} (f : AIEngine → AIEngine * A) :
  (∀ s, same_frame s (fst (f s))) → keeps_frame (call f).
Proof. intros Hf s. unfold call. specialize (Hf s). by destruct (f s). Qed.

Ltac keeps :=
  repeat first
    [ apply keeps_ret | apply keeps_lift | apply keeps_gets
    | apply keeps_set_scaler | apply keeps_set_model
    | apply keeps_lookup; intros ?
    | apply keeps_bind; [|intros ?]
    | match goal with |- keeps_frame (if ?b then _ else _) => destruct b end
    | match goal with |- keeps_frame (let _ := _ in _) => cbv zeta end ].

Lemma keeps_scaler_fit_transform name rows : keeps_frame (scaler_fit_transform name rows).
Proof. unfold scaler_fit_transform. keeps. Qed.

Lemma keeps_model_fit name rows : keeps_frame (model_fit name rows).
Proof. unfold model_fit. keeps. Qed.

Lemma keeps_scaler_transform name row : keeps_frame (scaler_transform name row).
Proof. unfold scaler_transform. keeps. Qed.

Lemma keeps_model_decision_function name row :
  keeps_frame (model_decision_function name row).
Proof. unfold model_decision_function. keeps. Qed.

Lemma keeps_model_predict name row : keeps_frame (model_predict name row).
Proof. unfold model_predict. keeps. Qed.

Lemma frame_detect_system_anomalies features s :
  same_frame s (fst (_detect_system_anomalies features s)).
Proof.
  apply keeps_try_except.
  repeat first
    [ apply keeps_scaler_fit_transform | apply keeps_model_fit
    | apply keeps_scaler_transform | apply keeps_model_decision_function
    | apply keeps_model_predict | progress keeps ].
Qed.

Lemma frame_detect_network_anomalies features s :
  same_frame s (fst (_detect_network_anomalies features s)).
Proof.
  apply keeps_try_except.
  repeat first
    [ apply keeps_scaler_fit_transform | apply keeps_model_fit
    | apply keeps_scaler_transform | apply keeps_model_decision_function
    | apply keeps_model_predict | progress keeps ].
Qed.

Lemma keeps_run_if_truthy features detector anomalies :
  (∀ a s, same_frame s (fst (detector a s))) →
  keeps_frame (run_if_truthy features detector anomalies).
Proof.
  intros Hd. unfold run_if_truthy. destruct features as [a|]; [|apply keeps_ret].
  apply keeps_bind; [apply keeps_lift|]. intros [].
  - apply keeps_bind; [by apply keeps_call | intros ?; apply keeps_ret].
  - apply keeps_ret.
Qed.

(** The effect of [detect_anomalies] on the buffer of an initialized engine:
    one append, whatever the detectors do or raise afterwards. *)
Lemma detect_anomalies_history now md (s : AIEngine) :
  initialized s = true →
  historical_data (fst (detect_anomalies now md s)) =
    deque_append {| timestamp := now; data := md |} (historical_data s) ∧
  initialized (fst (detect_anomalies now md s)) = true ∧
  thresholds (fst (detect_anomalies now md s)) = thresholds s.
Proof.
  intros Hi. unfold detect_anomalies. rewrite Hi. simpl negb. cbv iota.
  match goal with |- context [try_except ?m ?h s] =>
    assert (∃ k, m = bind (modify (append_history {| timestamp := now; data := md |})) k
                 ∧ ∀ u, keeps_frame (k u)) as (k & -> & Hk)
  end.
  { eexists. split; [reflexivity|]. intros u. cbv beta.
    repeat first
      [ apply keeps_run_if_truthy;
        [first [apply frame_detect_system_anomalies | apply frame_detect_network_anomalies]]
      | progress keeps ]. }
  unfold try_except, bind, modify.
  specialize (Hk tt (append_history {| timestamp := now; data := md |} s)).
  destruct (k tt _) as [s' [a|]]; simpl in *;
    destruct Hk as (-> & -> & _ & ->); done.
Qed.

Lemma last_n_last_n_app {A} n (l k : list A) :
  last_n n (last_n n l ++ k) = last_n n (l ++ k).
Proof.
  unfold last_n. rewrite !length_app, length_drop, !drop_app, drop_drop, length_drop.
  destruct (decide (length l ≤ n)).
  - replace (length l - n) with 0 by lia. simpl. by rewrite Nat.sub_0_r.
  - f_equal; f_equal; lia.
Qed.

Lemma deque_append_items {A} (x : A) (d : deque A) :
  length (items d) ≤ maxlen d →
  items (deque_append x d) = last_n (maxlen d) (items d ++ [x]).
Proof.
  intros Hlen. unfold deque_append, last_n. simpl. rewrite length_app. simpl.
  destruct (Nat.ltb_spec (maxlen d) (length (items d) + 1)).
  - by replace (length (items d) + 1 - maxlen d) with 1 by lia.
  - by replace (length (items d) + 1 - maxlen d) with 0 by lia.
Qed.

Lemma foldl_deque_append {A} (xs : list A) (d : deque A) :
  length (items d) ≤ maxlen d →
  foldl (λ d x, deque_append x d) d xs =
    Deque (maxlen d) (last_n (maxlen d) (items d ++ xs)).
Proof.
  revert d. induction xs as [|x xs IH]; intros d Hlen.
  - simpl. rewrite app_nil_r, last_n_all by done. by destruct d.
  - cbn [foldl]. rewrite IH.
    + simpl maxlen. rewrite deque_append_items by done.
      by rewrite last_n_last_n_app, <- app_assoc.
    + simpl maxlen. rewrite deque_append_items, last_n_length by done. lia.
Qed.

Lemma ingest_history inputs (s : AIEngine) :
  initialized s = true →
  historical_data (ingest inputs s) =
    foldl (λ d x, deque_append x d) (historical_data s) (entry_of <$> inputs) ∧
  initialized (ingest inputs s) = true ∧
  thresholds (ingest inputs s) = thresholds s.
Proof.
  revert s. induction inputs as [|[now md] inputs IH]; intros s Hi; [done|].
  unfold ingest. cbn [foldl fmap list_fmap fst snd].
  destruct (detect_anomalies_history now md s Hi) as (Hh & Hi' & Ht).
  destruct (IH _ Hi') as (IH1 & IH2 & IH3). unfold ingest in IH1, IH2, IH3.
  rewrite IH1, IH2, IH3, Hh, Ht. done.
Qed.

(** The limits of the threshold detector are those of [__init__] whatever
    has been ingested. *)
Lemma ingest_thresholds inputs :
  thresholds (ingest inputs (initialize __init__)) = thresholds __init__.
Proof. by destruct (ingest_history inputs (initialize __init__)) as (_ & _ & ->). Qed.

End frame.

(** C10.  On an engine that is not initialized, [detect_anomalies] returns
    the empty list and leaves the engine as it is: nothing is appended to
    [historical_data], and the models, the scalers and [patterns] are the
    same. *)
Theorem detect_anomalies_not_initialized `{ML : SkLearn} `{NP : Numpy}
    (self : AIEngine) (now : Z) (metrics_data : Metrics) :
  initialized self = false →
  detect_anomalies now metrics_data self = (self, []).
Proof. intros H. unfold detect_anomalies. by rewrite H. Qed.

(** C4.  Whatever snapshots go through [detect_anomalies] on a freshly
    initialized engine, the buffer never holds more than 1000 entries and
    holds the most recent (at most 1000) of the appended entries, in the
    order of their insertion, the latest last; after [1000 + k] appends it
    holds exactly the last 1000 of them. *)
Theorem historical_data_bound_and_order `{ML : SkLearn} `{NP : Numpy}
    (inputs : list (Z * Metrics)) :
  let buffer := items (historical_data (ingest inputs (initialize __init__))) in
  length buffer ≤ 1000 ∧
  buffer = last_n 1000 (entry_of <$> inputs) ∧
  (∀ k, length inputs = 1000 + k →
        buffer = drop k (entry_of <$> inputs) ∧ length buffer = 1000).
Proof.
  intros buffer.
  assert (buffer = last_n 1000 (entry_of <$> inputs)) as Hb.
  { subst buffer. destruct (ingest_history inputs (initialize __init__)) as (-> & _); [done|].
    rewrite foldl_deque_append by (simpl; lia). done. }
  split; [|split; [done|]].
  - rewrite Hb, last_n_length. lia.
  - intros k Hk. rewrite Hb. unfold last_n. rewrite length_fmap, Hk.
    replace (1000 + k - 1000) with k by lia. split; [done|].
    rewrite length_drop, length_fmap. lia.
Qed.


Lemma detect_anomalies_not_initialized_witness :
  detect_anomalies (ML := toy_sklearn) (NP := exact_numpy) 5 (usage_snapshot "cpu" 96) __init__
  = (__init__, []).
Proof.
  apply (detect_anomalies_not_initialized (ML := toy_sklearn) (NP := exact_numpy)). reflexivity.
Defined.

Lemma historical_data_bound_and_order_witness :
  let inputs := usage_inputs "cpu" (replicate 1002 50%Q) in
  items (historical_data (ingest (ML := toy_sklearn) (NP := exact_numpy)
      inputs (initialize __init__)))
  = drop 2 (entry_of <$> inputs).
Proof.
  intros inputs.
  apply (proj2 (proj2 (historical_data_bound_and_order (ML := toy_sklearn) (NP := exact_numpy)
      inputs)) 2).
  vm_compute. reflexivity.
Defined.

(** The truth value of a feature vector.  Both extractors return [None] or
    an array of at least 3 entries, whose truth value raises; the handler of
    [detect_anomalies] then returns the empty list.  So for a snapshot that
    has any of the four groups [detect_anomalies] appends the snapshot and
    returns no finding, and neither the threshold nor the trend detector is
    reached. *)
Lemma extract_system_features_no_truth_value md v :
  _extract_system_features md = Some v → array_bool v = None.
Proof.
  unfold _extract_system_features.
  destruct (md !! "cpu"), (md !! "memory"), (md !! "disk"); simpl;
    intros [= <-]; done.
Qed.

Lemma extract_network_features_no_truth_value md v :
  _extract_network_features md = Some v → array_bool v = None.
Proof.
  unfold _extract_network_features.
  destruct (md !! "network"); simpl; intros [= <-]; done.
Qed.

Lemma detect_anomalies_silent_on_groups `{ML : SkLearn} `{NP : Numpy}
    (self : AIEngine) (now : Z) (metrics_data : Metrics) :
  initialized self = true →
  is_Some (metrics_data !! "cpu") ∨ is_Some (metrics_data !! "memory") ∨
  is_Some (metrics_data !! "disk") ∨ is_Some (metrics_data !! "network") →
  detect_anomalies now metrics_data self =
    (append_history {| timestamp := now; data := metrics_data |} self, []).
Proof.
  intros Hi Hgroup. unfold detect_anomalies. rewrite Hi. simpl negb. cbv iota.
  unfold try_except, bind, modify, run_if_truthy.
  destruct (_extract_system_features metrics_data) as [v|] eqn:Hsys.
  - by rewrite (extract_system_features_no_truth_value _ _ Hsys).
  - destruct (_extract_network_features metrics_data) as [w|] eqn:Hnet.
    + unfold ret at 1. by rewrite (extract_network_features_no_truth_value _ _ Hnet).
    + exfalso. revert Hsys Hnet Hgroup.
      unfold _extract_system_features, _extract_network_features.
      destruct (metrics_data !! "cpu"), (metrics_data !! "memory"),
        (metrics_data !! "disk"), (metrics_data !! "network"); simpl; try done.
      intros _ _ [[? ?]|[[? ?]|[[? ?]|[? ?]]]]; done.
Qed.

Lemma of_type_app t l1 l2 : of_type t (l1 ++ l2) = of_type t l1 ++ of_type t l2.
Proof. apply filter_app. Qed.

Lemma of_type_breach_ne md group field limit mk t :
  (∀ v, type (mk v) ≠ t) → of_type t (breach md group field limit mk) = [].
Proof.
  intros H. unfold breach, of_type. destruct (md !! group) as [g|]; [|done].
  destruct (Qltb limit (get g field)); [|done].
  by rewrite filter_cons_False by apply H.
Qed.

Lemma of_type_breach_eq md group field limit mk t :
  (∀ v, type (mk v) = t) →
  of_type t (breach md group field limit mk) = breach md group field limit mk.
Proof.
  intros H. unfold breach, of_type. destruct (md !! group) as [g|]; [|done].
  destruct (Qltb limit (get g field)); [|done].
  by rewrite filter_cons_True by apply H.
Qed.

(** C5.  The threshold detector under the limits set by [__init__].  For a
    snapshot with a [cpu] group: a [usage_percent] of 96 gives exactly one
    finding of type [cpu_threshold_breach], of severity [critical]; 82 gives
    exactly one, of severity [high]; 50 gives none.  The result is the
    findings of the four metrics one after the other, each decided by its
    own group alone. *)
Theorem threshold_detector_cpu `{ML : SkLearn}
    (self : AIEngine) (metrics_data : Metrics) (cpu : gmap string Q) :
  thresholds self = thresholds __init__ →
  metrics_data !! "cpu" = Some cpu →
  let u := get cpu "usage_percent" in
  let out := _detect_threshold_anomalies metrics_data self in
  ((u == 96)%Q →
     ∃ f, of_type "cpu_threshold_breach" out = [f] ∧ severity f = "critical" ∧
          value f = Some u ∧ threshold f = Some 80%Q) ∧
  ((u == 82)%Q →
     ∃ f, of_type "cpu_threshold_breach" out = [f] ∧ severity f = "high" ∧
          value f = Some u ∧ threshold f = Some 80%Q) ∧
  ((u == 50)%Q → of_type "cpu_threshold_breach" out = []) ∧
  out =
    breach metrics_data "cpu" "usage_percent" 80 (λ v,
      {| type := "cpu_threshold_breach";
         severity := if Qltb 95 v then "critical" else "high";
         score := None; value := Some v; threshold := Some 80%Q;
         description := [Lit "CPU usage "; Num v; Lit "% exceeds threshold"];
         suggested_action := "identify_cpu_intensive_processes" |}) ++
    breach metrics_data "memory" "usage_percent" 85 (λ v,
      {| type := "memory_threshold_breach";
         severity := if Qltb 95 v then "critical" else "high";
         score := None; value := Some v; threshold := Some 85%Q;
         description := [Lit "Memory usage "; Num v; Lit "% exceeds threshold"];
         suggested_action := "free_memory_resources" |}) ++
    breach metrics_data "disk" "usage_percent" 90 (λ v,
      {| type := "disk_threshold_breach";
         severity := if Qltb 98 v then "critical" else "high";
         score := None; value := Some v; threshold := Some 90%Q;
         description := [Lit "Disk usage "; Num v; Lit "% exceeds threshold"];
         suggested_action := "cleanup_disk_space" |}) ++
    breach metrics_data "network" "latency_ms" 200 (λ v,
      {| type := "network_latency_high";
         severity := "medium";
         score := None; value := Some v; threshold := Some 200%Q;
         description := [Lit "Network latency "; Num v; Lit "ms exceeds threshold"];
         suggested_action := "check_network_connectivity" |}).
Proof.
  intros Hth Hcpu u out.
  match goal with |- _ ∧ _ ∧ _ ∧ out = ?rhs => assert (out = rhs) as Hout end.
  { subst out. unfold _detect_threshold_anomalies, threshold_of, breach.
    rewrite Hth.
    change (thresholds __init__ !! "cpu_usage") with (Some 80%Q).
    change (thresholds __init__ !! "memory_usage") with (Some 85%Q).
    change (thresholds __init__ !! "disk_usage") with (Some 90%Q).
    change (thresholds __init__ !! "network_latency") with (Some 200%Q).
    rewrite Hcpu.
    destruct (metrics_data !! "memory") as [mem|];
      destruct (metrics_data !! "disk") as [disk|];
      destruct (metrics_data !! "network") as [net|];
      unfold bind, lift, append, modify, ret; simpl;
      repeat match goal with |- context [Qltb ?a ?b] =>
               lazymatch b with
               | get _ _ => destruct (Qltb a b) eqn:?
               end; simpl
             end; reflexivity. }
  assert (of_type "cpu_threshold_breach" out =
          if Qltb 80 u then
            [{| type := "cpu_threshold_breach";
                severity := if Qltb 95 u then "critical" else "high";
                score := None; value := Some u; threshold := Some 80%Q;
                description := [Lit "CPU usage "; Num u; Lit "% exceeds threshold"];
                suggested_action := "identify_cpu_intensive_processes" |}]
          else []) as Hcpu_only.
  { rewrite Hout, !of_type_app.
    rewrite (of_type_breach_ne _ "memory"), (of_type_breach_ne _ "disk"),
      (of_type_breach_ne _ "network") by (intros v; simpl; congruence).
    rewrite !app_nil_r, of_type_breach_eq by done.
    unfold breach. by rewrite Hcpu. }
  split; [|split; [|split; [|exact Hout]]]; intros Hu; rewrite Hcpu_only.
  - assert (Qltb 80 u = true) as -> by (apply Qltb_lt; lra).
    assert (Qltb 95 u = true) as -> by (apply Qltb_lt; lra).
    eexists; split; [reflexivity|]. done.
  - assert (Qltb 80 u = true) as -> by (apply Qltb_lt; lra).
    assert (Qltb 95 u = false) as -> by (apply Qltb_ge; lra).
    eexists; split; [reflexivity|]. done.
  - by assert (Qltb 80 u = false) as -> by (apply Qltb_ge; lra).
Qed.

Lemma threshold_detector_cpu_witness :
  let md : Metrics := {[ "cpu" := {[ "usage_percent" := 96%Q ]};
                         "disk" := {[ "usage_percent" := 99%Q ]} ]} in
  ∃ f, of_type "cpu_threshold_breach"
         (_detect_threshold_anomalies (ML := toy_sklearn) md __init__) = [f]
       ∧ severity f = "critical" ∧ value f = Some 96%Q ∧ threshold f = Some 80%Q.
Proof.
  intros md.
  refine (proj1 (threshold_detector_cpu (ML := toy_sklearn) __init__ md
                   {[ "usage_percent" := 96%Q ]} eq_refl eq_refl) _).
  vm_compute. reflexivity.
Defined.

(** C6, as stated, fails: the system vector has no fixed length.  A
    snapshot with the [cpu] group alone gives 4 entries, one with the groups
    [cpu], [memory] and [disk] gives 11. *)
Lemma extract_system_features_length_varies :
  let cpu_only : Metrics := {[ "cpu" := {[ "usage_percent" := 50%Q ]} ]} in
  let full : Metrics := {[ "cpu" := {[ "usage_percent" := 50%Q ]};
                           "memory" := {[ "usage_percent" := 40%Q ]};
                           "disk" := {[ "usage_percent" := 30%Q ]} ]} in
  _extract_system_features cpu_only = Some [50; 0; 0; 0]%Q ∧
  _extract_system_features full = Some [50; 0; 0; 0; 40; 0; 0; 30; 0; 0; 0]%Q ∧
  ¬ ∃ n, ∀ md v, _extract_system_features md = Some v → length v = n.
Proof.
  intros cpu_only full.
  assert (_extract_system_features cpu_only = Some [50; 0; 0; 0]%Q) as H1
    by (vm_compute; reflexivity).
  assert (_extract_system_features full
          = Some [50; 0; 0; 0; 40; 0; 0; 30; 0; 0; 0]%Q) as H2
    by (vm_compute; reflexivity).
  split; [done|split; [done|]]. intros [n Hn].
  pose proof (Hn _ _ H1) as E1. pose proof (Hn _ _ H2) as E2.
  simpl in E1, E2. congruence.
Qed.

Lemma block_length md group fields :
  length (block md group fields) =
  match md !! group with Some _ => length fields | None => 0 end.
Proof. unfold block. destruct (md !! group); [apply length_fmap | done]. Qed.

Lemma block_lookup md group fields g i f :
  md !! group = Some g → fields !! i = Some f →
  block md group fields !! i = Some (default 0%Q (g !! f)).
Proof.
  intros Hg Hf. unfold block. rewrite Hg, list_lookup_fmap, Hf. done.
Qed.

(** C6, amended.  Each extractor returns [None] exactly when the snapshot
    has none of the groups of its family.  Otherwise the network vector is
    the six network fields in their fixed order, and the system vector is
    the blocks of the groups that are present, in the order [cpu] (4
    fields), [memory] (3), [disk] (4): 11 entries when the three groups are
    present, fewer otherwise.  Within the block of a present group the
    entry at the position of a field is the field, or 0 when it is
    missing. *)
Theorem extract_features_shape (metrics_data : Metrics) :
  (_extract_system_features metrics_data = None ↔
     metrics_data !! "cpu" = None ∧ metrics_data !! "memory" = None ∧
     metrics_data !! "disk" = None) ∧
  (_extract_network_features metrics_data = None ↔
     metrics_data !! "network" = None) ∧
  (∀ v, _extract_system_features metrics_data = Some v →
     v = block metrics_data "cpu" cpu_fields ++
         block metrics_data "memory" memory_fields ++
         block metrics_data "disk" disk_fields ∧
     (is_Some (metrics_data !! "cpu") → is_Some (metrics_data !! "memory") →
      is_Some (metrics_data !! "disk") → length v = 11)) ∧
  (∀ v, _extract_network_features metrics_data = Some v →
     v = block metrics_data "network" network_fields ∧ length v = 6) ∧
  (∀ group fields g i f,
     metrics_data !! group = Some g → fields !! i = Some f →
     block metrics_data group fields !! i = Some (default 0%Q (g !! f)) ∧
     (g !! f = None → block metrics_data group fields !! i = Some 0%Q)).
Proof.
  unfold _extract_system_features, _extract_network_features, block.
  split; [|split; [|split; [|split]]].
  - destruct (metrics_data !! "cpu"), (metrics_data !! "memory"),
      (metrics_data !! "disk"); simpl; split; try done; intros (?&?&?); done.
  - destruct (metrics_data !! "network"); simpl; split; done.
  - intros v. destruct (metrics_data !! "cpu"), (metrics_data !! "memory"),
      (metrics_data !! "disk"); simpl; intros [= <-]; split; try done;
      intros [? ?] [? ?] [? ?]; done.
  - intros v. destruct (metrics_data !! "network"); simpl; [|done].
    by intros [= <-].
  - intros group fields g i f Hg Hf.
    pose proof (block_lookup _ _ _ _ _ _ Hg Hf) as H. unfold block in H.
    split; [done|]. intros Hnone. by rewrite H, Hnone.
Qed.

Lemma extract_features_shape_witness :
  let md : Metrics := {[ "memory" := {[ "available_mb" := 2048%Q ]} ]} in
  _extract_system_features md = Some [0; 2048; 0]%Q ∧
  [0; 2048; 0]%Q = block md "cpu" cpu_fields ++ block md "memory" memory_fields ++
                   block md "disk" disk_fields.
Proof.
  intros md.
  assert (_extract_system_features md = Some [0; 2048; 0]%Q) as H
    by (vm_compute; reflexivity).
  split; [exact H|].
  exact (proj1 (proj1 (proj2 (proj2 (extract_features_shape md))) _ H)).
Defined.





Lemma severity_by_score (s limit : Q) :
  ((if Qltb s limit then "high" else "medium") = "high" ↔ (s < limit)%Q) ∧
  ((if Qltb s limit then "high" else "medium") = "medium" ↔ ¬ (s < limit)%Q).
Proof.
  destruct (Qltb s limit) eqn:E.
  - apply Qltb_lt in E. repeat split; intros H; done.
  - apply Qltb_ge in E.
    repeat split; intros H;
      first [ done | by apply Qle_not_lt | exfalso; by apply (Qlt_not_le _ _ H) ].
Qed.

(** C7.  The outlier detector of each family.  With fewer than 50 (system)
    or 30 (network) buffered snapshots it emits nothing and refits nothing.
    When the window is deep enough for the refit, the scaler and the model
    are refit on the window and the refit model labels the current vector
    an outlier, exactly one finding is emitted; its severity is [high] if
    and only if the score is below -0.5 (system) or -0.3 (network), and
    [medium] otherwise.  No other finding is ever emitted: every finding
    carries a score and obeys the same rule. *)
Theorem outlier_detector_gate_and_severity `{ML : SkLearn}
    (self : AIEngine) (features : list Q) :
  let history := items (historical_data self) in
  let system_window :=
    omap (λ entry, _extract_system_features (data entry)) (last_n 50 history) in
  let network_window :=
    omap (λ entry, _extract_network_features (data entry)) (last_n 30 history) in
  (length history < 50 → _detect_system_anomalies features self = (self, [])) ∧
  (length history < 30 → _detect_network_anomalies features self = (self, [])) ∧
  (∀ sc0 sc m0 m rows x s,
     50 < length history → 10 < length system_window →
     scalers self !! "system_metrics" = Some sc0 →
     fit_transform sc0 system_window = (sc, Some rows) →
     anomaly_models self !! "system_metrics" = Some m0 →
     fit m0 rows = (m, true) →
     transform sc features = Some x →
     decision_function m x = Some s →
     predict m x = Some (-1)%Z →
     ∃ f, snd (_detect_system_anomalies features self) = [f] ∧
          type f = "system_anomaly" ∧ score f = Some s ∧
          (severity f = "high" ↔ (s < -0.5)%Q) ∧
          (severity f = "medium" ↔ ¬ (s < -0.5)%Q)) ∧
  (∀ sc0 sc m0 m rows x s,
     30 < length history → 10 < length network_window →
     scalers self !! "network_metrics" = Some sc0 →
     fit_transform sc0 network_window = (sc, Some rows) →
     anomaly_models self !! "network_metrics" = Some m0 →
     fit m0 rows = (m, true) →
     transform sc features = Some x →
     decision_function m x = Some s →
     predict m x = Some (-1)%Z →
     ∃ f, snd (_detect_network_anomalies features self) = [f] ∧
          type f = "network_anomaly" ∧ score f = Some s ∧
          (severity f = "high" ↔ (s < -0.3)%Q) ∧
          (severity f = "medium" ↔ ¬ (s < -0.3)%Q)) ∧
  (∀ f, f ∈ snd (_detect_system_anomalies features self) →
     ∃ s, score f = Some s ∧ (severity f = "high" ↔ (s < -0.5)%Q) ∧
          (severity f = "medium" ↔ ¬ (s < -0.5)%Q)) ∧
  (∀ f, f ∈ snd (_detect_network_anomalies features self) →
     ∃ s, score f = Some s ∧ (severity f = "high" ↔ (s < -0.3)%Q) ∧
          (severity f = "medium" ↔ ¬ (s < -0.3)%Q)).
Proof.
  intros history system_window network_window.
  split; [|split; [|split; [|split; [|split]]]].
  - intros Hlen. unfold _detect_system_anomalies, try_except, bind, gets.
    fold history. by rewrite (proj2 (Nat.ltb_ge 50 _)) by lia.
  - intros Hlen. unfold _detect_network_anomalies, try_except, bind, gets.
    fold history. by rewrite (proj2 (Nat.ltb_ge 30 _)) by lia.
  - intros sc0 sc m0 m rows x s Hlen Hwin Hsc0 Hft Hm0 Hfit Htr Hdf Hpr.
    unfold _detect_system_anomalies, try_except, bind, gets.
    fold history. rewrite (proj2 (Nat.ltb_lt 50 _)) by done.
    cbv zeta. fold system_window. rewrite (proj2 (Nat.ltb_lt 10 _)) by done.
    unfold scaler_fit_transform, model_fit, scaler_transform,
      model_decision_function, model_predict, bind, lift, modify, ret.
    rewrite Hsc0. cbv zeta. rewrite Hft. simpl. rewrite Hm0, Hfit. simpl.
    repeat (first [rewrite lookup_insert_eq | rewrite Htr | rewrite Hdf | rewrite Hpr];
            simpl).
    eexists. split; [reflexivity|]. simpl. split; [done|split; [done|]].
    apply severity_by_score.
  - intros sc0 sc m0 m rows x s Hlen Hwin Hsc0 Hft Hm0 Hfit Htr Hdf Hpr.
    unfold _detect_network_anomalies, try_except, bind, gets.
    fold history. rewrite (proj2 (Nat.ltb_lt 30 _)) by done.
    cbv zeta. fold network_window. rewrite (proj2 (Nat.ltb_lt 10 _)) by done.
    unfold scaler_fit_transform, model_fit, scaler_transform,
      model_decision_function, model_predict, bind, lift, modify, ret.
    rewrite Hsc0. cbv zeta. rewrite Hft. simpl. rewrite Hm0, Hfit. simpl.
    repeat (first [rewrite lookup_insert_eq | rewrite Htr | rewrite Hdf | rewrite Hpr];
            simpl).
    eexists. split; [reflexivity|]. simpl. split; [done|split; [done|]].
    apply severity_by_score.
  - intros f. unfold _detect_system_anomalies, try_except, bind, gets,
      scaler_fit_transform, model_fit, scaler_transform,
      model_decision_function, model_predict, bind, lift, modify, ret.
    repeat (case_match; simplify_eq/=; try by intros ?%elem_of_nil);
      (intros ->%list_elem_of_singleton; simpl; eexists; (split; [done|]);
       match goal with
       | H : Qltb ?q ?l = _ |- _ =>
         pose proof (severity_by_score q l) as Hs; rewrite H in Hs; exact Hs
       end).
  - intros f. unfold _detect_network_anomalies, try_except, bind, gets,
      scaler_fit_transform, model_fit, scaler_transform,
      model_decision_function, model_predict, bind, lift, modify, ret.
    repeat (case_match; simplify_eq/=; try by intros ?%elem_of_nil);
      (intros ->%list_elem_of_singleton; simpl; eexists; (split; [done|]);
       match goal with
       | H : Qltb ?q ?l = _ |- _ =>
         pose proof (severity_by_score q l) as Hs; rewrite H in Hs; exact Hs
       end).
Qed.

(** With exactly 50 (system) or 30 (network) snapshots buffered the
    detectors still do nothing: the tests on the depth are strict. *)
Lemma outlier_detector_at_minimum_depth `{ML : SkLearn}
    (self : AIEngine) (features : list Q) :
  (length (items (historical_data self)) = 50 →
   _detect_system_anomalies features self = (self, [])) ∧
  (length (items (historical_data self)) = 30 →
   _detect_network_anomalies features self = (self, [])).
Proof.
  split; intros Hlen.
  - unfold _detect_system_anomalies, try_except, bind, gets. by rewrite Hlen.
  - unfold _detect_network_anomalies, try_except, bind, gets. by rewrite Hlen.
Qed.

Lemma outlier_detector_gate_and_severity_witness :
  let self := ingest (ML := toy_sklearn) (NP := exact_numpy)
      (usage_inputs "cpu" (replicate 51 50%Q))
                (initialize __init__) in
  ∃ f, snd (_detect_system_anomalies (ML := toy_sklearn) [-0.7; 0; 0; 0]%Q self) = [f] ∧
       type f = "system_anomaly" ∧ score f = Some (-0.7)%Q ∧
       (severity f = "high" ↔ (-0.7 < -0.5)%Q) ∧
       (severity f = "medium" ↔ ¬ (-0.7 < -0.5)%Q).
Proof.
  intros self.
  destruct (outlier_detector_gate_and_severity (ML := toy_sklearn) self
              [-0.7; 0; 0; 0]%Q) as (_ & _ & H & _).
  apply (H tt tt tt tt
           (omap (λ entry, _extract_system_features (data entry))
                 (last_n 50 (items (historical_data self))))
           [-0.7; 0; 0; 0]%Q (-0.7)%Q).
  - apply Nat.ltb_lt. vm_compute. reflexivity.
  - apply Nat.ltb_lt. vm_compute. reflexivity.
  - vm_compute. reflexivity.
  - reflexivity.
  - vm_compute. reflexivity.
  - reflexivity.
  - reflexivity.
  - reflexivity.
  - reflexivity.
Defined.

Lemma usage_values_length group entries :
  length (usage_values group entries) ≤ length entries.
Proof.
  unfold usage_values. induction entries as [|e entries IH]; [done|].
  cbn [omap list_omap]. destruct (_ <$> data e !! group); simpl in *; lia.
Qed.

Lemma py_min_le a b : (py_min a b <= a)%Q.
Proof.
  unfold py_min. destruct (Qltb b a) eqn:E.
  - apply Qltb_lt in E. by apply Qlt_le_weak.
  - apply Qle_refl.
Qed.

(** The gates of one resource of [predict_failure]. *)
Lemma prediction_gates `{NP : Numpy} (usage : list Q) (limit horizon floor cap scale : Q) p :
  (0 <= floor)%Q →
  (if 5 <=? length usage then
     if Qltb floor (polyfit1_slope usage) then
       if Qltb ((limit - last_value usage) / polyfit1_slope usage) horizon then
         Some {| time_to_failure :=
                   Qtrunc ((limit - last_value usage) / polyfit1_slope usage);
                 confidence := py_min cap (polyfit1_slope usage * scale);
                 current_usage := last_value usage;
                 trend := polyfit1_slope usage |}
       else None
     else None
   else None) = Some p →
  5 ≤ length usage ∧
  trend p = polyfit1_slope usage ∧ current_usage p = last_value usage ∧
  (0 < trend p)%Q ∧ ((limit - current_usage p) / trend p < horizon)%Q ∧
  time_to_failure p = Qtrunc ((limit - current_usage p) / trend p) ∧
  (confidence p <= cap)%Q.
Proof.
  intros Hfloor.
  destruct (5 <=? length usage) eqn:Hlen; [|done].
  destruct (Qltb floor (polyfit1_slope usage)) eqn:Hslope; [|done].
  destruct (Qltb _ horizon) eqn:Htime; [|done].
  intros [= <-]. simpl. apply Nat.leb_le in Hlen.
  apply Qltb_lt in Hslope, Htime.
  repeat split; try done.
  - by eapply Qle_lt_trans.
  - apply py_min_le.
Qed.

(** The memory prediction is decided by the slope fitted to the window of
    memory values and by its last value. *)
Lemma memory_prediction_of_window `{ML : SkLearn} `{NP : Numpy}
    (self : AIEngine) (metrics_data : Metrics) (u : list Q) :
  10 ≤ length (items (historical_data self)) →
  is_Some (metrics_data !! "memory") →
  usage_values "memory" (last_n 10 (items (historical_data self))) = u →
  5 ≤ length u →
  let prediction := memory_exhaustion_prediction (predict_failure metrics_data self) in
  ((0.5 < polyfit1_slope u)%Q → (95 - last_value u < 50 * polyfit1_slope u)%Q →
     ∃ p, prediction = Some p ∧ trend p = polyfit1_slope u) ∧
  ((polyfit1_slope u <= 0.5)%Q ∨ (50 * polyfit1_slope u <= 95 - last_value u)%Q →
     prediction = None).
Proof.
  intros Hlen [g Hg] Hu Hfive prediction. subst prediction.
  unfold predict_failure.
  rewrite (proj2 (Nat.ltb_ge _ _) Hlen). cbn [memory_exhaustion_prediction].
  rewrite Hg, Hu, (proj2 (Nat.leb_le _ _) Hfive).
  set (s := polyfit1_slope u). set (cur := last_value u).
  split.
  - intros Hs Ht.
    assert (Qltb 0.5 s = true) as -> by by apply Qltb_lt.
    assert (Qltb ((95 - cur) / s) 50 = true) as ->.
    { apply Qltb_lt. apply Qlt_shift_div_r; lra. }
    by eexists.
  - intros Hno.
    destruct (Qltb 0.5 s) eqn:E; [|done]. apply Qltb_lt in E.
    destruct (Qltb ((95 - cur) / s) 50) eqn:E'; [|done]. apply Qltb_lt in E'.
    destruct Hno as [Hno|Hno]; [lra|].
    apply (Qmult_lt_compat_r _ _ s) in E'; [|lra].
    rewrite Qmult_comm, Qmult_div_r in E'; [lra|].
    intros Hz. rewrite Hz in E. lra.
Qed.

(** The buffer after the first [n] snapshots of the rising series. *)
Lemma after_rising_history `{ML : SkLearn} `{NP : Numpy} (n : nat) :
  items (historical_data (after_rising n))
    = entry_of <$> usage_inputs "memory" (take n rising_memory).
Proof.
  unfold after_rising.
  destruct (ingest_history (usage_inputs "memory" (take n rising_memory))
              (initialize __init__)) as (-> & _); [done|].
  rewrite foldl_deque_append by (simpl; lia). simpl.
  apply last_n_all.
  unfold usage_inputs. rewrite length_fmap, length_imap, length_take.
  unfold rising_memory. rewrite length_fmap, length_seq. lia.
Qed.

(** The windows of the rising series: ten values with the exact slope
    60/59, the last of them the value of the latest snapshot. *)
Lemma rising_window_facts (n : nat) :
  10 ≤ n ≤ 60 →
  10 ≤ length (entry_of <$> usage_inputs "memory" (take n rising_memory)) ∧
  usage_values "memory"
    (last_n 10 (entry_of <$> usage_inputs "memory" (take n rising_memory)))
    = rising_window n ∧
  length (rising_window n) = 10 ∧
  (least_squares_slope (rising_window n) == 60 # 59)%Q ∧
  (last_value (rising_window n) == 10 + (60 # 59) * inject_Z (Z.of_nat (n - 1)))%Q.
Proof.
  intros [Hlo Hhi]. do 10 (destruct n as [|n]; [lia|]).
  do 51 (destruct n as [|n]; [vm_compute; split_and!; (reflexivity || lia)|]).
  lia.
Qed.

(** C8 ([predict_failure] does not predict as soon as 10 snapshots are
    buffered).  With the first 10 of the 60 snapshots whose memory usage
    rises linearly from 10 to 70 in the buffer, and also with the first
    34, the memory prediction is absent: the slope is about 1.017, above
    0.5, but the time to 95% is not below 50 intervals. *)
Lemma memory_prediction_absent_with_10_buffered :
  let after n :=
    ingest (ML := toy_sklearn) (NP := exact_numpy)
      (usage_inputs "memory" (take n rising_memory)) (initialize __init__) in
  let prediction n :=
    memory_exhaustion_prediction
      (predict_failure (NP := exact_numpy) (usage_snapshot "memory" 70) (after n)) in
  length (items (historical_data (after 10))) = 10 ∧ prediction 10 = None ∧
  length (items (historical_data (after 34))) = 34 ∧ prediction 34 = None.
Proof. vm_compute. repeat split; reflexivity. Qed.

(** C8.  [predict_failure] reports a prediction for the disk only if the
    slope fitted over the usage values of the last 10 buffered snapshots
    (at least 5 of them) is positive and the extrapolated time to 100% is
    below 100 intervals, and for the memory only if the slope is positive
    and the time to 95% is below 50 intervals; the confidence is at most
    0.9 for the disk and 0.85 for the memory.  Along 60 snapshots whose
    memory usage rises linearly from 10 to 70, with a fit that is within
    0.001 of the least-squares slope, the memory prediction asked with a
    snapshot that has a [memory] group is absent while 10 to 34 snapshots
    are buffered and is there, with a positive trend, from the 35th
    snapshot on. *)
Theorem predict_failure_gates `{ML : SkLearn} `{NP : Numpy}
    (self : AIEngine) (metrics_data : Metrics) :
  let history := items (historical_data self) in
  let predictions := predict_failure metrics_data self in
  (∀ p, disk_full_prediction predictions = Some p →
     let usage := usage_values "disk" (last_n 10 history) in
     10 ≤ length history ∧ is_Some (metrics_data !! "disk") ∧
     5 ≤ length usage ≤ 10 ∧
     trend p = polyfit1_slope usage ∧ current_usage p = last_value usage ∧
     (0 < trend p)%Q ∧ ((100 - current_usage p) / trend p < 100)%Q ∧
     time_to_failure p = Qtrunc ((100 - current_usage p) / trend p) ∧
     (confidence p <= 0.9)%Q) ∧
  (∀ p, memory_exhaustion_prediction predictions = Some p →
     let usage := usage_values "memory" (last_n 10 history) in
     10 ≤ length history ∧ is_Some (metrics_data !! "memory") ∧
     5 ≤ length usage ≤ 10 ∧
     trend p = polyfit1_slope usage ∧ current_usage p = last_value usage ∧
     (0 < trend p)%Q ∧ ((95 - current_usage p) / trend p < 50)%Q ∧
     time_to_failure p = Qtrunc ((95 - current_usage p) / trend p) ∧
     (confidence p <= 0.85)%Q) ∧
  (is_Some (metrics_data !! "memory") →
   (∀ n, 10 ≤ n ≤ 60 → accurate_on (rising_window n) (1 # 1000)) →
   ∀ n,
     (10 ≤ n ≤ 34 →
        memory_exhaustion_prediction (predict_failure metrics_data (after_rising n))
        = None) ∧
     (35 ≤ n ≤ 60 →
        ∃ p, memory_exhaustion_prediction
               (predict_failure metrics_data (after_rising n)) = Some p ∧
             (0 < trend p)%Q)).
Proof.
  intros history predictions.
  assert (∀ group, length (usage_values group (last_n 10 history)) ≤ 10) as Hten.
  { intros group. etrans; [apply usage_values_length|].
    rewrite last_n_length. lia. }
  split; [|split].
  - intros p. subst predictions. unfold predict_failure. fold history.
    destruct (length history <? 10) eqn:Hlen; [done|]. apply Nat.ltb_ge in Hlen.
    cbn [disk_full_prediction].
    destruct (metrics_data !! "disk") as [g|]; [|done].
    intros Hp. apply prediction_gates in Hp; [|done].
    destruct Hp as (? & ? & ? & ? & ? & ? & ?).
    repeat split; eauto.
  - intros p. subst predictions. unfold predict_failure. fold history.
    destruct (length history <? 10) eqn:Hlen; [done|]. apply Nat.ltb_ge in Hlen.
    cbn [memory_exhaustion_prediction].
    destruct (metrics_data !! "memory") as [g|]; [|done].
    intros Hp. apply prediction_gates in Hp; [|done].
    destruct Hp as (? & ? & ? & ? & ? & ? & ?).
    repeat split; eauto.
  - intros Hmem Hfit n.
    assert (10 ≤ n ≤ 60 →
            ∃ N, (N == inject_Z (Z.of_nat (n - 1)))%Q ∧
              let s := polyfit1_slope (rising_window n) in
              let cur := last_value (rising_window n) in
              ((60 # 59) - (1 # 1000) <= s)%Q ∧ (s <= (60 # 59) + (1 # 1000))%Q ∧
              (cur == 10 + (60 # 59) * N)%Q ∧
              ((0.5 < s)%Q → (95 - cur < 50 * s)%Q →
                 ∃ p, memory_exhaustion_prediction
                        (predict_failure metrics_data (after_rising n)) = Some p ∧
                      trend p = s) ∧
              ((s <= 0.5)%Q ∨ (50 * s <= 95 - cur)%Q →
                 memory_exhaustion_prediction
                   (predict_failure metrics_data (after_rising n)) = None)) as Hn.
    { intros Hn. destruct (rising_window_facts n Hn) as (Hlen & Hu & Hten' & Hls & Hcur).
      destruct (Hfit n Hn) as [Hlo Hhi]. rewrite Hls in Hlo, Hhi.
      eexists. split; [reflexivity|]. cbv zeta. split_and!; try done.
      - apply (memory_prediction_of_window (after_rising n) metrics_data (rising_window n));
          rewrite ?after_rising_history; try done. lia.
      - apply (memory_prediction_of_window (after_rising n) metrics_data (rising_window n));
          rewrite ?after_rising_history; try done. lia. }
    split.
    + intros [Hlo Hhi]. destruct Hn as (N & HN & Hs1 & Hs2 & Hcur & _ & Hnone); [lia|].
      apply Hnone. right.
      assert (N <= 33)%Q.
      { rewrite HN. change 33%Q with (inject_Z 33). rewrite <- Zle_Qle. lia. }
      rewrite Hcur. lra.
    + intros [Hlo Hhi]. destruct Hn as (N & HN & Hs1 & Hs2 & Hcur & Hsome & _); [lia|].
      destruct Hsome as (p & Hp & Ht).
      * lra.
      * assert (34 <= N)%Q.
        { rewrite HN. change 34%Q with (inject_Z 34). rewrite <- Zle_Qle. lia. }
        rewrite Hcur. lra.
      * exists p. split; [done|]. rewrite Ht. lra.
Qed.

Lemma predict_failure_gates_witness :
  ∃ p, memory_exhaustion_prediction
         (predict_failure (ML := toy_sklearn) (NP := exact_numpy)
            (usage_snapshot "memory" 70) (after_rising (NP := exact_numpy) 60))
       = Some p ∧ (0 < trend p)%Q.
Proof.
  refine (proj2 (proj2 (proj2 (predict_failure_gates (ML := toy_sklearn) (NP := exact_numpy)
            __init__ (usage_snapshot "memory" 70))) _ _ 60) _).
  - vm_compute. by eexists.
  - intros n _. unfold accurate_on. simpl. split; lra.
  - lia.
Defined.

End ai_engine_facts.

(** ** More on the alert manager *)

Module alert_lifecycle_facts.
Import alert_manager alert_manager_facts.

Lemma string_app_assoc (a b c : string) : (a +:+ b) +:+ c = a +:+ (b +:+ c).
Proof.
  induction a as [|x a IH]; [done|].
  change (String x ((a +:+ b) +:+ c) = String x (a +:+ (b +:+ c))). by f_equal.
Qed.

Lemma omap_all_None {A B} (f : A → option B) (l : list A) :
  (∀ x, x ∈ l → f x = None) → omap f l = [].
Proof.
  induction l as [|x l IH]; intros H; [done|].
  cbn [omap list_omap]. rewrite (H x) by left. apply IH. intros y Hy. apply H. by right.
Qed.

(** X1.  In every reachable state [cleanup_old_alerts] changes nothing:
    the alerts it looks for, resolved ones in [active_alerts], do not
    occur, because [resolve_alert] removes the alert it marks. *)
Theorem cleanup_old_alerts_changes_nothing (s : AlertManager) (now : Z) :
  reachable s → cleanup_old_alerts now s = s.
Proof.
  intros Hs. apply reachable_wf in Hs as [Ha _ _].
  unfold cleanup_old_alerts. rewrite omap_all_None.
  - by destruct s.
  - intros [k r] Hin. apply elem_of_map_to_list in Hin.
    destruct (Ha _ _ Hin) as (_ & a & Hr & Hst & _). simpl.
    rewrite Hr. unfold expired. by rewrite Hst.
Qed.

Lemma cleanup_old_alerts_changes_nothing_witness :
  let d := {| ad_type := Some "cpu_threshold_breach"; ad_agent_id := Some "agent-1";
              ad_severity := Some "critical"; ad_description := None;
              ad_suggested_action := None |} in
  let s := (resolve_alert 5 "cpu_threshold_breach_agent-1"
              (process_alert 0 1 d __init__).1).1 in
  reachable s ∧ cleanup_old_alerts (hours 48) s = s.
Proof.
  intros d s.
  assert (reachable s) as Hr.
  { unfold reachable, s. eapply rtc_r; [eapply rtc_r; [apply rtc_refl|]|].
    - apply (step_process 0 1 d).
    - apply (step_resolve 5 "cpu_threshold_breach_agent-1"). }
  exact (conj Hr (cleanup_old_alerts_changes_nothing s (hours 48) Hr)).
Defined.

(** Repeated findings of an active key. *)
Lemma process_all_active_key ds : ∀ s key r a,
  active_alerts s !! key = Some r → objects s !! r = Some a →
  Forall (λ i : Z * Z * AlertData,
            ∃ ty, ad_type i.2 = Some ty ∧ make_alert_id ty i.2 = key) ds →
  ∃ a', active_alerts (process_all ds s) !! key = Some r ∧
        objects (process_all ds s) !! r = Some a' ∧
        count a' = (count a + Z.of_nat (length ds))%Z ∧
        id a' = id a ∧ type a' = type a ∧ severity a' = severity a ∧
        description a' = description a ∧ first_seen a' = first_seen a ∧
        suggested_action a' = suggested_action a ∧ agent_id a' = agent_id a ∧
        status a' = status a ∧
        last_seen a' = default (last_seen a) (last ((λ i, i.1.1) <$> ds)) ∧
        alert_history (process_all ds s) = alert_history s.
Proof.
  induction ds as [|[[now now'] d] ds IH]; intros s key r a Hk Hr Hall.
  - exists a. simpl. repeat split; try done. lia.
  - apply Forall_cons in Hall as [(ty & Hty & Hid) Hall]. simpl in Hty, Hid.
    unfold process_all. cbn [foldl]. fold (process_all ds).
    set (s1 := (process_alert now now' d s).1).
    assert (active_alerts s1 !! key = Some r ∧
            objects s1 !! r = Some (bump now a) ∧
            alert_history s1 = alert_history s) as (Hk1 & Hr1 & Hh1).
    { subst s1. unfold process_alert. simpl. rewrite Hty, Hid, Hk, Hr. simpl.
      by rewrite lookup_insert_eq. }
    destruct (IH s1 key r (bump now a) Hk1 Hr1 Hall)
      as (a' & ? & ? & Hc & ? & ? & ? & ? & ? & ? & ? & ? & Hl & Hh).
    exists a'. repeat split; try done.
    + rewrite Hc. simpl. lia.
    + rewrite Hl. rewrite fmap_cons.
      match goal with |- context [last (?f <$> ds)] =>
        destruct (f <$> ds) as [|z l] end; [reflexivity|].
      rewrite last_cons_cons. destruct (last (z :: l)) eqn:E; [reflexivity|].
      by apply last_None in E.
    + etrans; [exact Hh | exact Hh1].
Qed.

(** X2.  The first finding of a key decides the alert.  When a key that
    is not active receives a finding and then any number of further
    findings of the same key, there is one alert for it: the count is the
    number of findings, the type, severity, description, suggested action
    and first-seen time are those of the first finding whatever the later
    ones carry, and the history has grown by exactly one entry. *)
Theorem first_finding_decides_the_alert
    (s : AlertManager) (now now' : Z) (d : AlertData)
    (ds : list (Z * Z * AlertData)) (ty key : string) :
  ad_type d = Some ty → make_alert_id ty d = key →
  active_alerts s !! key = None →
  Forall (λ i : Z * Z * AlertData,
            ∃ ty', ad_type i.2 = Some ty' ∧ make_alert_id ty' i.2 = key) ds →
  let s' := process_all ds (process_alert now now' d s).1 in
  ∃ r a, active_alerts s' !! key = Some r ∧ objects s' !! r = Some a ∧
         count a = (1 + Z.of_nat (length ds))%Z ∧
         type a = ty ∧
         severity a = default "medium" (ad_severity d) ∧
         description a = default [] (ad_description d) ∧
         suggested_action a = ad_suggested_action d ∧
         first_seen a = now ∧ status a = active ∧
         length (alert_history s') = S (length (alert_history s)).
Proof.
  intros Hty Hid Hnone Hall s'.
  set (s1 := (process_alert now now' d s).1).
  assert (∃ a1, active_alerts s1 !! key = Some (next_object s) ∧
            objects s1 !! next_object s = Some a1 ∧ count a1 = 1%Z ∧
            type a1 = ty ∧ severity a1 = default "medium" (ad_severity d) ∧
            description a1 = default [] (ad_description d) ∧
            suggested_action a1 = ad_suggested_action d ∧ first_seen a1 = now ∧
            status a1 = active ∧
            alert_history s1 = alert_history s ++ [S (next_object s)])
    as (a1 & Hk1 & Hr1 & ? & ? & ? & ? & ? & ? & ? & Hh1).
  { subst s1. unfold process_alert. rewrite Hty, Hid, Hnone. simpl.
    eexists. rewrite lookup_insert_eq, lookup_insert_ne, lookup_insert_eq by lia.
    repeat split; reflexivity. }
  destruct (process_all_active_key ds s1 key _ a1 Hk1 Hr1 Hall)
    as (a' & ? & ? & Hc & ? & ? & ? & ? & ? & ? & ? & ? & ? & Hh).
  exists (next_object s), a'. subst s'. fold s1.
  repeat split; try congruence.
  rewrite Hh, Hh1, length_app. simpl. lia.
Qed.

Lemma first_finding_decides_the_alert_witness :
  let d sev := {| ad_type := Some "disk_threshold_breach"; ad_agent_id := Some "db-1";
                  ad_severity := Some sev; ad_description := None;
                  ad_suggested_action := None |} in
  let s' := process_all [(10, 10, d "critical"); (20, 20, d "critical")]%Z
              (process_alert 0 1 (d "high") __init__).1 in
  ∃ r a, active_alerts s' !! "disk_threshold_breach_db-1" = Some r ∧
         objects s' !! r = Some a ∧ count a = 3%Z ∧ severity a = "high".
Proof.
  intros d s'.
  destruct (first_finding_decides_the_alert __init__ 0 1 (d "high")
              [(10, 10, d "critical"); (20, 20, d "critical")]%Z
              "disk_threshold_breach" "disk_threshold_breach_db-1")
    as (r & a & Hk & Hr & Hc & _ & Hsev & _).
  - reflexivity.
  - reflexivity.
  - reflexivity.
  - repeat constructor; by exists "disk_threshold_breach".
  - exists r, a. repeat split; assumption.
Defined.

Lemma active_ok_init : active_ok __init__.
Proof. intros k r a H. simpl in H. by rewrite lookup_empty in H. Qed.

Lemma active_ok_step s s' : wf s → active_ok s → step s s' → active_ok s'.
Proof.
  intros [Ha Hh Hs] Hok Hstep. destruct Hstep as [now now' d s|now k0 s|now s].
  - unfold process_alert. destruct (ad_type d) as [ty|]; [|done].
    destruct (active_alerts s !! make_alert_id ty d) as [r0|] eqn:Hk.
    + destruct (objects s !! r0) as [a0|] eqn:Hr0; [|done].
      intros k r a Hkr. simpl in Hkr |- *.
      destruct (decide (r = r0)) as [->|Hne].
      * rewrite lookup_insert_eq. intros [= <-]. simpl.
        destruct (Hok _ _ _ Hk Hr0) as [? ?]. split; [lia|done].
      * rewrite lookup_insert_ne by done. intros Hr. by eapply Hok.
    + intros k r a. simpl.
      destruct (decide (k = make_alert_id ty d)) as [->|Hne].
      * rewrite lookup_insert_eq. intros [= <-].
        rewrite lookup_insert_ne, lookup_insert_eq by lia. by intros [= <-].
      * rewrite lookup_insert_ne by done. intros Hkr.
        destruct (Ha _ _ Hkr) as [Hlt _].
        rewrite !lookup_insert_ne by lia. intros Hr. by eapply Hok.
  - unfold resolve_alert. destruct (active_alerts s !! k0) as [r0|] eqn:Hk; [|done].
    destruct (objects s !! r0) as [a0|] eqn:Hr0; [|done].
    intros k r a Hkr. simpl in Hkr |- *.
    apply lookup_delete_Some in Hkr as [Hne Hkr].
    rewrite lookup_insert_ne; [intros Hr; by eapply Hok|].
    intros ->. destruct (Ha _ _ Hk) as (_ & b & Hb & _ & Hid).
    destruct (Ha _ _ Hkr) as (_ & b' & Hb' & _ & Hid'). congruence.
  - intros k r a Hkr Hr. apply cleanup_active_subset in Hkr. by eapply Hok.
Qed.

Lemma reachable_active_ok s : reachable s → active_ok s.
Proof.
  intros H. cut (wf s ∧ active_ok s); [tauto|].
  unfold reachable in H.
  eapply (rtc_ind_r (λ s, wf s ∧ active_ok s)); [| |exact H].
  - split; [apply wf_init | apply active_ok_init].
  - intros y z Hy Hstep [Hwf Hok]. split.
    + apply reachable_wf. by eapply reachable_step.
    + by eapply active_ok_step.
Qed.

(** X3.  The active alerts of a reachable state: each has status
    [active], a count of at least 1 and no [resolved_at], and no two of
    them have the same [id]. *)
Theorem active_alerts_invariant (s : AlertManager) (a : Alert) :
  reachable s → a ∈ get_active_alerts s →
  status a = active ∧ (1 ≤ count a)%Z ∧ resolved_at a = None ∧
  ∀ b, b ∈ get_active_alerts s → id b = id a → b = a.
Proof.
  intros Hs Hin. pose proof (reachable_wf _ Hs) as [Ha _ _].
  pose proof (reachable_active_ok _ Hs) as Hok.
  apply elem_of_get_active_alerts in Hin as (k & r & Hk & Hr).
  destruct (Ha _ _ Hk) as (_ & a' & Hr' & Hst & Hid).
  assert (a' = a) as -> by congruence.
  destruct (Hok _ _ _ Hk Hr) as [? ?].
  repeat split; try done.
  intros b Hb Hidb. apply elem_of_get_active_alerts in Hb as (k' & r' & Hk' & Hrb).
  destruct (Ha _ _ Hk') as (_ & b' & Hb' & _ & Hid').
  assert (b' = b) as -> by congruence.
  assert (k' = k) as -> by congruence. congruence.
Qed.

Lemma active_alerts_invariant_witness :
  let d := {| ad_type := Some "cpu_threshold_breach"; ad_agent_id := None;
              ad_severity := None; ad_description := None;
              ad_suggested_action := None |} in
  let s := (process_alert 2 3 d (process_alert 0 1 d __init__).1).1 in
  let a := {| id := "cpu_threshold_breach_unknown"; type := "cpu_threshold_breach";
              severity := "medium"; description := []; first_seen := 0;
              last_seen := 2; count := 2; status := active; agent_id := None;
              suggested_action := None; resolved_at := None |} in
  reachable s ∧ a ∈ get_active_alerts s ∧ (1 ≤ count a)%Z.
Proof.
  intros d s a.
  assert (reachable s) as Hr.
  { unfold reachable, s. eapply rtc_r; [eapply rtc_r; [apply rtc_refl|]|].
    - apply (step_process 0 1 d).
    - apply (step_process 2 3 d). }
  assert (a ∈ get_active_alerts s) as Hin by (vm_compute; left).
  exact (conj Hr (conj Hin (proj1 (proj2 (active_alerts_invariant s a Hr Hin))))).
Defined.

Lemma deref_app s l k : deref s (l ++ k) = deref s l ++ deref s k.
Proof. apply omap_app. Qed.

Lemma deref_ext s s' l :
  (∀ r, r ∈ l → objects s' !! r = objects s !! r) → deref s' l = deref s l.
Proof.
  intros H. unfold deref. apply list_omap_ext.
  induction l as [|r l IH]; constructor.
  - apply H. by left.
  - apply IH. intros r' Hr'. apply H. by right.
Qed.

Lemma step_history s s' :
  wf s → step s s' →
  alert_history s `prefix_of` alert_history s' ∧
  ∀ r, r ∈ alert_history s → objects s' !! r = objects s !! r.
Proof.
  intros [Ha Hh Hs] Hstep. destruct Hstep as [now now' d s|now k0 s|now s].
  - unfold process_alert. destruct (ad_type d) as [ty|]; [|done].
    destruct (active_alerts s !! make_alert_id ty d) as [r0|] eqn:Hk.
    + destruct (objects s !! r0) as [a0|] eqn:Hr0; [|done]. simpl.
      split; [done|]. intros r Hin. rewrite lookup_insert_ne; [done|].
      intros ->. by eapply Hs.
    + simpl. split; [by apply prefix_app_r|].
      intros r Hin. destruct (Hh _ Hin) as [Hlt _].
      by rewrite !lookup_insert_ne by lia.
  - unfold resolve_alert. destruct (active_alerts s !! k0) as [r0|] eqn:Hk; [|done].
    destruct (objects s !! r0) as [a0|] eqn:Hr0; [|done]. simpl.
    split; [done|]. intros r Hin. rewrite lookup_insert_ne; [done|].
    intros ->. by eapply Hs.
  - done.
Qed.

Lemma get_alert_history_all s : get_alert_history 0 s = deref s (alert_history s).
Proof. done. Qed.

(** X4.  The alert history is append-only.  Whatever calls of
    [process_alert], [resolve_alert] and [cleanup_old_alerts] follow a
    reachable state, what [get_alert_history] showed before (read with the
    limit 0, which returns the whole list) is a prefix of what it shows
    afterwards: no entry is ever removed or changed. *)
Theorem alert_history_append_only (s s' : AlertManager) :
  reachable s → rtc step s s' →
  get_alert_history 0 s `prefix_of` get_alert_history 0 s'.
Proof.
  intros Hs Hsteps. rewrite !get_alert_history_all.
  cut (alert_history s `prefix_of` alert_history s' ∧
       ∀ r, r ∈ alert_history s → objects s' !! r = objects s !! r).
  { intros [[k ->] Hobj]. rewrite deref_app.
    rewrite (deref_ext s s' (alert_history s)) by done. by apply prefix_app_r. }
  induction Hsteps as [s|s s1 s' Hstep Hsteps IH].
  - done.
  - destruct (step_history s s1 (reachable_wf _ Hs) Hstep) as [Hp Ho].
    destruct IH as [Hp' Ho']; [by eapply reachable_step|].
    split; [by etrans|].
    intros r Hin. rewrite Ho'; [by apply Ho|].
    destruct Hp as [k ->]. apply elem_of_app. by left.
Qed.

Lemma alert_history_append_only_witness :
  let d := {| ad_type := Some "cpu_threshold_breach"; ad_agent_id := Some "agent-1";
              ad_severity := None; ad_description := None;
              ad_suggested_action := None |} in
  let s := (process_alert 0 1 d __init__).1 in
  let s' := (resolve_alert 5 "cpu_threshold_breach_agent-1" s).1 in
  get_alert_history 0 s `prefix_of` get_alert_history 0 s'.
Proof.
  intros d s s'. apply alert_history_append_only.
  - unfold reachable, s. eapply rtc_r; [apply rtc_refl|]. apply (step_process 0 1 d).
  - unfold s'. apply rtc_once. apply (step_resolve 5 "cpu_threshold_breach_agent-1").
Defined.

Lemma deref_total s l :
  (∀ r, r ∈ l → is_Some (objects s !! r)) →
  length (deref s l) = length l ∧ ∀ n, deref s (drop n l) = drop n (deref s l).
Proof.
  induction l as [|r l IH]; intros H.
  - split; [done|]. intros n. rewrite drop_nil.
    change (deref s []) with (@nil Alert). by rewrite drop_nil.
  - destruct (H r) as [a Ha]; [by left|].
    destruct IH as [IH1 IH2]; [intros r' Hr'; apply H; by right|].
    assert (deref s (r :: l) = a :: deref s l) as Hcons.
    { unfold deref. cbn [omap list_omap]. by rewrite Ha. }
    rewrite Hcons. split; [simpl; by rewrite IH1|]. intros [|n].
    + by rewrite !drop_0.
    + simpl. apply IH2.
Qed.

(** X5.  The limit of [get_alert_history] in a reachable state.  A
    positive limit gives the most recent entries, at most that many.  The
    limit 0 does not give an empty list: [alert_history[-0:]] is the whole
    history. *)
Theorem get_alert_history_limit (s : AlertManager) (limit : Z) :
  reachable s →
  length (get_alert_history 0 s) = length (alert_history s) ∧
  ((0 < limit)%Z →
   get_alert_history limit s = last_n (Z.to_nat limit) (get_alert_history 0 s) ∧
   length (get_alert_history limit s) = min (Z.to_nat limit) (length (alert_history s))).
Proof.
  intros Hs. apply reachable_wf in Hs as [_ Hh _].
  assert (∀ r, r ∈ alert_history s → is_Some (objects s !! r)) as Htot.
  { intros r Hin. destruct (Hh _ Hin) as (_ & a & -> & _). by eexists. }
  destruct (deref_total s _ Htot) as [Hlen Hdrop].
  rewrite get_alert_history_all. split; [done|]. intros Hpos.
  assert (get_alert_history limit s
          = last_n (Z.to_nat limit) (deref s (alert_history s))) as ->.
  { unfold get_alert_history, slice_from, last_n.
    rewrite (proj2 (Z.ltb_lt (- limit) 0)) by lia.
    rewrite Hdrop, Hlen. f_equal. lia. }
  split; [done|]. by rewrite last_n_length, Hlen.
Qed.

Lemma get_alert_history_limit_witness :
  let d := {| ad_type := Some "cpu_threshold_breach"; ad_agent_id := Some "agent-1";
              ad_severity := None; ad_description := None;
              ad_suggested_action := None |} in
  let s := (process_alert 0 1 d __init__).1 in
  length (get_alert_history 1 s) = min (Z.to_nat 1) (length (alert_history s)).
Proof.
  intros d s.
  refine (proj2 (proj2 (get_alert_history_limit s 1 _) _)).
  - unfold reachable, s. eapply rtc_r; [apply rtc_refl|]. apply (step_process 0 1 d).
  - reflexivity.
Defined.

(** X6.  The key [type + "_" + agent_id] does not separate its two
    parts.  A finding of type [t_a] from agent [b] and a finding of type
    [t] from agent [a_b] have the same key: processed one after the other
    from a state where the key is not active, they are counted as one
    alert, with count 2 and the type of the first. *)
Theorem alert_key_merges_distinct_findings
    (s : AlertManager) (t a b : string) (d1 d2 : AlertData) (n1 n1' n2 n2' : Z) :
  ad_type d1 = Some (t +:+ "_" +:+ a) → ad_agent_id d1 = Some b →
  ad_type d2 = Some t → ad_agent_id d2 = Some (a +:+ "_" +:+ b) →
  active_alerts s !! (t +:+ "_" +:+ a +:+ "_" +:+ b) = None →
  let r1 := process_alert n1 n1' d1 s in
  let r2 := process_alert n2 n2' d2 r1.1 in
  ∃ r alert, r1.2 = Some r ∧ r2.2 = Some r ∧
             objects r2.1 !! r = Some alert ∧ count alert = 2%Z ∧
             type alert = t +:+ "_" +:+ a ∧ agent_id alert = Some b.
Proof.
  intros Ht1 Ha1 Ht2 Ha2 Hnone r1 r2.
  assert (make_alert_id (t +:+ "_" +:+ a) d1 = t +:+ "_" +:+ a +:+ "_" +:+ b) as Hid1.
  { unfold make_alert_id. rewrite Ha1. simpl.
    by rewrite (string_app_assoc t), (string_app_assoc "_" a). }
  assert (make_alert_id t d2 = t +:+ "_" +:+ a +:+ "_" +:+ b) as Hid2.
  { unfold make_alert_id. by rewrite Ha2. }
  set (key := t +:+ "_" +:+ a +:+ "_" +:+ b) in *.
  assert (∃ a1, r1.2 = Some (next_object s) ∧
                active_alerts r1.1 !! key = Some (next_object s) ∧
                objects r1.1 !! next_object s = Some a1 ∧ count a1 = 1%Z ∧
                type a1 = t +:+ "_" +:+ a ∧ agent_id a1 = Some b)
    as (a1 & Hres1 & Hk1 & Ho1 & Hc1 & Hty1 & Hag1).
  { subst r1. unfold process_alert. rewrite Ht1, Hid1, Hnone. simpl.
    rewrite lookup_insert_eq, lookup_insert_ne, lookup_insert_eq by lia.
    eexists. repeat split; try reflexivity. exact Ha1. }
  exists (next_object s), (bump n2 a1).
  assert (r2 = (with_state r1.1 (<[next_object s := bump n2 a1]> (objects r1.1))
                  (next_object r1.1) (active_alerts r1.1) (alert_history r1.1),
                Some (next_object s))) as ->.
  { subst r2. unfold process_alert. by rewrite Ht2, Hid2, Hk1, Ho1. }
  simpl. rewrite lookup_insert_eq. repeat split; try done. lia.
Qed.

Lemma alert_key_merges_distinct_findings_witness :
  let d1 := {| ad_type := Some "disk_threshold"; ad_agent_id := Some "web";
               ad_severity := None; ad_description := None;
               ad_suggested_action := None |} in
  let d2 := {| ad_type := Some "disk"; ad_agent_id := Some "threshold_web";
               ad_severity := None; ad_description := None;
               ad_suggested_action := None |} in
  ∃ r alert, (process_alert 0 1 d1 __init__).2 = Some r ∧
             (process_alert 2 3 d2 (process_alert 0 1 d1 __init__).1).2 = Some r ∧
             objects (process_alert 2 3 d2 (process_alert 0 1 d1 __init__).1).1 !! r
               = Some alert ∧
             count alert = 2%Z ∧ type alert = "disk_threshold" ∧
             agent_id alert = Some "web".
Proof.
  intros d1 d2.
  apply (alert_key_merges_distinct_findings __init__ "disk" "threshold" "web" d1 d2 0 1 2 3);
    reflexivity.
Defined.

(** X7.  A key can be active again after its resolution, and the count
    starts over.  When an active key is resolved and a finding of the key
    arrives afterwards, a new alert is made for it, a different object from
    the resolved one, with count 1 and the time of the new finding as
    first-seen, and the history gets one more entry. *)
Theorem resolved_key_starts_over
    (s : AlertManager) (key ty : string) (r0 : nat) (d : AlertData) (t now now' : Z) :
  reachable s → active_alerts s !! key = Some r0 →
  ad_type d = Some ty → make_alert_id ty d = key →
  let s1 := (resolve_alert t key s).1 in
  let s2 := (process_alert now now' d s1).1 in
  ∃ r a, active_alerts s2 !! key = Some r ∧ r ≠ r0 ∧
         objects s2 !! r = Some a ∧ count a = 1%Z ∧ first_seen a = now ∧
         status a = active ∧ resolved_at a = None ∧
         length (alert_history s2) = S (length (alert_history s)).
Proof.
  intros Hs Hk Hty Hid s1 s2.
  destruct (wf_active _ (reachable_wf _ Hs) _ _ Hk) as (Hlt & a0 & Hr0 & _).
  assert (s1 = with_state s (<[r0 := mark_resolved t a0]> (objects s))
                 (next_object s) (delete key (active_alerts s)) (alert_history s))
    as Hs1.
  { subst s1. unfold resolve_alert. by rewrite Hk, Hr0. }
  subst s2. unfold process_alert. rewrite Hty, Hid, Hs1. simpl.
  rewrite lookup_delete_eq. simpl.
  exists (next_object s). eexists.
  rewrite lookup_insert_eq, lookup_insert_ne, lookup_insert_eq by lia.
  repeat split; try reflexivity; try lia.
  rewrite length_app. simpl. lia.
Qed.

Lemma resolved_key_starts_over_witness :
  let d := {| ad_type := Some "cpu_threshold_breach"; ad_agent_id := Some "agent-1";
              ad_severity := None; ad_description := None;
              ad_suggested_action := None |} in
  let s := (process_alert 2 3 d (process_alert 0 1 d __init__).1).1 in
  let s2 := (process_alert 9 9 d
               (resolve_alert 5 "cpu_threshold_breach_agent-1" s).1).1 in
  ∃ r a, active_alerts s2 !! "cpu_threshold_breach_agent-1" = Some r ∧ r ≠ 0 ∧
         objects s2 !! r = Some a ∧ count a = 1%Z ∧ first_seen a = 9%Z.
Proof.
  intros d s s2.
  destruct (resolved_key_starts_over s "cpu_threshold_breach_agent-1"
              "cpu_threshold_breach" 0 d 5 9 9)
    as (r & a & H1 & H2 & H3 & H4 & H5 & _).
  - unfold reachable, s. eapply rtc_r; [eapply rtc_r; [apply rtc_refl|]|].
    + apply (step_process 0 1 d).
    + apply (step_process 2 3 d).
  - reflexivity.
  - reflexivity.
  - reflexivity.
  - exists r, a. repeat split; assumption.
Defined.

End alert_lifecycle_facts.

(** ** The connection manager *)

Module connection_manager_facts.
Import connection_manager.

Lemma remove_first_other x c l : c ≠ x → remove_first c (x :: l) = x :: remove_first c l.
Proof. intros H. simpl. by rewrite decide_False by done. Qed.

Lemma foldl_remove_first_keeps x l D :
  x ∉ D → foldl (λ l c, remove_first c l) (x :: l) D
          = x :: foldl (λ l c, remove_first c l) l D.
Proof.
  revert l. induction D as [|c D IH]; intros l Hx; [done|].
  cbn [foldl]. rewrite remove_first_other.
  - apply IH. intros ?. apply Hx. by right.
  - intros ->. apply Hx. by left.
Qed.

(** X8.  After [broadcast_to_dashboards] the dashboard connections are
    exactly those on which the send succeeded, in their order; a
    connection on which it failed is removed, at every place where it
    occurs.  The agent connections are not touched. *)
Theorem broadcast_keeps_the_connections_that_send
    (sends : WebSocket → bool) (self : ConnectionManager) :
  active_connections (broadcast_to_dashboards sends self)
    = filter (λ c, sends c = true) (active_connections self) ∧
  agent_connections (broadcast_to_dashboards sends self) = agent_connections self.
Proof.
  split; [|done]. unfold broadcast_to_dashboards. simpl.
  induction (active_connections self) as [|x l IH]; [done|].
  destruct (sends x) eqn:Hx.
  - rewrite filter_cons_False by congruence. rewrite filter_cons_True by done.
    rewrite foldl_remove_first_keeps; [by rewrite IH|].
    intros Hin. apply list_elem_of_filter in Hin as [Hf _]. congruence.
  - rewrite filter_cons_True by done. rewrite filter_cons_False by congruence.
    cbn [foldl]. simpl. rewrite decide_True by done. exact IH.
Qed.

(** X9.  [send_to_agent] returns [True] exactly when the agent is
    registered and the send succeeds, and then changes nothing.  A failed
    send to a registered agent unregisters it, and only it; a further
    [send_to_agent] to that agent returns [False] whatever the websocket
    would do.  For an agent that is not registered nothing changes. *)
Theorem send_to_agent_outcome
    (sends sends' : WebSocket → bool) (agent_id : string) (self : ConnectionManager) :
  let r := send_to_agent sends agent_id self in
  (r.2 = true ↔ ∃ w, agent_connections self !! agent_id = Some w ∧ sends w = true) ∧
  (r.2 = true ∨ agent_connections self !! agent_id = None → r.1 = self) ∧
  (r.2 = false →
     agent_connections r.1 !! agent_id = None ∧
     (∀ other, other ≠ agent_id →
               agent_connections r.1 !! other = agent_connections self !! other) ∧
     active_connections r.1 = active_connections self ∧
     (send_to_agent sends' agent_id r.1).2 = false).
Proof.
  unfold send_to_agent.
  destruct (agent_connections self !! agent_id) as [w|] eqn:Hw.
  - destruct (sends w) eqn:Hs; simpl.
    + split; [split; [eauto | done]|]. split; [done|]. done.
    + split; [split; [done | intros (w' & [= <-] & ?); congruence]|].
      split; [intros [?|?]; done|]. intros _.
      rewrite lookup_delete_eq. repeat split; try done.
      intros other Hother. by rewrite lookup_delete_ne.
  - simpl. split; [split; [done | intros (w' & ? & ?); done]|].
    split; [done|]. intros _. rewrite Hw. repeat split; done.
Qed.

Lemma send_to_agent_outcome_witness :
  let self := connect 7 "agent" (Some "a1") __init__ in
  let r := send_to_agent (λ _, false) "a1" self in
  agent_connections (fst r) !! "a1" = None ∧
  snd (send_to_agent (λ _, true) "a1" (fst r)) = false.
Proof.
  intros self r.
  destruct (proj2 (proj2 (send_to_agent_outcome (λ _, false) (λ _, true) "a1" self)))
    as (H1 & _ & _ & H4).
  - reflexivity.
  - by split.
Defined.

(** X10.  [disconnect] with an agent id removes the agent's registration
    whichever websocket holds it.  When an agent connects again under its
    id before the handler of its earlier connection has disconnected, that
    later [disconnect] of the earlier websocket unregisters the agent: the
    new websocket is connected but commands to the agent are no longer
    delivered. *)
Theorem stale_disconnect_unregisters_the_agent
    (sends : WebSocket → bool) (self : ConnectionManager)
    (old new : WebSocket) (agent_id : string) :
  agent_id ≠ "" →
  let s1 := connect old "agent" (Some agent_id) self in
  let s2 := connect new "agent" (Some agent_id) s1 in
  let s3 := disconnect old (Some agent_id) s2 in
  agent_connections s2 !! agent_id = Some new ∧
  agent_connections s3 !! agent_id = None ∧
  send_to_agent sends agent_id s3 = (s3, false) ∧
  active_connections s3 = active_connections self.
Proof.
  intros Hne s1 s2 s3.
  assert (truthy (Some agent_id) = true) as Ht.
  { simpl. apply negb_true_iff. by apply String.eqb_neq. }
  assert (agent_connections s2 !! agent_id = Some new) as H2.
  { subst s2 s1. unfold connect. rewrite Ht. simpl. by rewrite lookup_insert_eq. }
  assert (agent_connections s3 !! agent_id = None ∧
          active_connections s3 = active_connections self) as [H3 H3'].
  { subst s3. unfold disconnect. rewrite Ht. simpl default. rewrite H2.
    rewrite bool_decide_true by (by eexists). simpl.
    rewrite lookup_delete_eq. split; [done|].
    subst s2 s1. unfold connect. by rewrite Ht. }
  repeat split; try done. unfold send_to_agent. by rewrite H3.
Qed.

Lemma stale_disconnect_unregisters_the_agent_witness :
  let s3 := disconnect 1 (Some "agent-1")
              (connect 2 "agent" (Some "agent-1")
                 (connect 1 "agent" (Some "agent-1") __init__)) in
  agent_connections s3 !! "agent-1" = None ∧
  send_to_agent (λ _, true) "agent-1" s3 = (s3, false).
Proof.
  intros s3.
  destruct (stale_disconnect_unregisters_the_agent (λ _, true) __init__ 1 2 "agent-1")
    as (_ & H1 & H2 & _).
  - discriminate.
  - exact (conj H1 H2).
Defined.

Lemma remove_first_snoc x l : x ∉ l → remove_first x (l ++ [x]) = l.
Proof.
  induction l as [|y l IH]; intros Hx; simpl.
  - by rewrite decide_True.
  - rewrite decide_False.
    + f_equal. apply IH. intros ?. apply Hx. by right.
    + intros ->. apply Hx. by left.
Qed.

(** X11.  Connecting and disconnecting.  A client that is not an agent,
    or comes without an agent id, is a dashboard connection: it is added at
    the end of [active_connections], also when it says it is an agent.
    Disconnecting a dashboard websocket that was not connected before, or
    an agent whose id was not registered before, restores the manager. *)
Theorem connect_then_disconnect
    (self : ConnectionManager) (websocket : WebSocket)
    (client_type agent_id : string) :
  (connect websocket "agent" None self
     = connect websocket "dashboard" None self ∧
   connect websocket "agent" (Some "") self
     = connect websocket "dashboard" None self ∧
   active_connections (connect websocket client_type None self)
     = active_connections self ++ [websocket]) ∧
  (websocket ∉ active_connections self →
   disconnect websocket None (connect websocket client_type None self) = self) ∧
  (agent_id ≠ "" → agent_connections self !! agent_id = None →
   disconnect websocket (Some agent_id)
     (connect websocket "agent" (Some agent_id) self) = self).
Proof.
  split; [|split].
  - unfold connect. simpl. rewrite andb_false_r. done.
  - intros Hnot. unfold connect. simpl. rewrite andb_false_r.
    unfold disconnect. simpl.
    rewrite bool_decide_true by (apply elem_of_app; right; by left).
    simpl. rewrite remove_first_snoc by done. by destruct self.
  - intros Hne Hnone.
    assert (truthy (Some agent_id) = true) as Ht.
    { simpl. apply negb_true_iff. by apply String.eqb_neq. }
    unfold connect. rewrite Ht. simpl. unfold disconnect. rewrite Ht. simpl.
    rewrite lookup_insert_eq. rewrite bool_decide_true by (by eexists). simpl.
    rewrite delete_insert_eq, delete_id by done. by destruct self.
Qed.

Lemma connect_then_disconnect_witness :
  disconnect 7 None (connect 7 "dashboard" None __init__) = __init__.
Proof.
  refine (proj1 (proj2 (connect_then_disconnect __init__ 7 "dashboard" "a")) _).
  apply not_elem_of_nil.
Defined.

End connection_manager_facts.

(** ** More on the anomaly engine *)

Module detector_facts.
Import ai_engine ai_engine_facts.

Section detectors.
Context `{ML : SkLearn} `{NP : Numpy}.

Lemma pattern_anomalies_types (self : AIEngine) md f :
  f ∈ _detect_pattern_anomalies md self →
  (type f = "cpu_trend_anomaly" ∨ type f = "memory_leak_pattern") ∧
  severity f = "high".
Proof.
  unfold _detect_pattern_anomalies.
  repeat match goal with |- context [if ?b then _ else _] => destruct b end;
    simpl; rewrite ?elem_of_cons; intros H;
    repeat match goal with
           | H : _ ∨ _ |- _ => destruct H as [->|H]
           | H : _ ∈ [] |- _ => by apply elem_of_nil in H
           end; simpl; auto.
Qed.

Lemma threshold_anomalies_no_group (self : AIEngine) md :
  md !! "cpu" = None → md !! "memory" = None → md !! "disk" = None →
  md !! "network" = None → _detect_threshold_anomalies md self = [].
Proof.
  intros H1 H2 H3 H4. unfold _detect_threshold_anomalies. by rewrite H1, H2, H3, H4.
Qed.

(** X12.  What [detect_anomalies] returns on an initialized engine.  The
    snapshot is appended in every case.  For a snapshot that has any of
    the groups [cpu], [memory], [disk], [network], the truth value of the
    feature array raises and the result is the empty list: the outlier,
    threshold and trend detectors are not reached.  For a snapshot without
    groups the result is what the trend detector finds in the buffer.  So
    every finding that [detect_anomalies] returns is a trend finding. *)
Theorem detect_anomalies_findings (self : AIEngine) (now : Z) (metrics_data : Metrics) :
  initialized self = true →
  let appended := append_history {| timestamp := now; data := metrics_data |} self in
  (is_Some (metrics_data !! "cpu") ∨ is_Some (metrics_data !! "memory") ∨
   is_Some (metrics_data !! "disk") ∨ is_Some (metrics_data !! "network") →
   detect_anomalies now metrics_data self = (appended, [])) ∧
  (metrics_data !! "cpu" = None → metrics_data !! "memory" = None →
   metrics_data !! "disk" = None → metrics_data !! "network" = None →
   detect_anomalies now metrics_data self
     = (appended, _detect_pattern_anomalies metrics_data appended)) ∧
  (∀ f, f ∈ snd (detect_anomalies now metrics_data self) →
        type f = "cpu_trend_anomaly" ∨ type f = "memory_leak_pattern").
Proof.
  intros Hi appended.
  assert (metrics_data !! "cpu" = None → metrics_data !! "memory" = None →
          metrics_data !! "disk" = None → metrics_data !! "network" = None →
          detect_anomalies now metrics_data self
            = (appended, _detect_pattern_anomalies metrics_data appended)) as Hnone.
  { intros H1 H2 H3 H4. unfold detect_anomalies. rewrite Hi. simpl negb. cbv iota.
    unfold _extract_system_features, _extract_network_features.
    rewrite H1, H2, H3, H4. simpl.
    unfold try_except, bind, modify, run_if_truthy, ret, gets. simpl.
    by rewrite threshold_anomalies_no_group. }
  split; [by apply detect_anomalies_silent_on_groups|]. split; [exact Hnone|].
  intros f.
  destruct (metrics_data !! "cpu") as [g|] eqn:H1;
    [rewrite detect_anomalies_silent_on_groups;
       [by intros ?%elem_of_nil | done | left; rewrite H1; by eexists]|].
  destruct (metrics_data !! "memory") as [g|] eqn:H2;
    [rewrite detect_anomalies_silent_on_groups;
       [by intros ?%elem_of_nil | done | right; left; rewrite H2; by eexists]|].
  destruct (metrics_data !! "disk") as [g|] eqn:H3;
    [rewrite detect_anomalies_silent_on_groups;
       [by intros ?%elem_of_nil | done | right; right; left; rewrite H3; by eexists]|].
  destruct (metrics_data !! "network") as [g|] eqn:H4;
    [rewrite detect_anomalies_silent_on_groups;
       [by intros ?%elem_of_nil | done
       | right; right; right; rewrite H4; by eexists]|].
  rewrite Hnone by done. simpl. intros Hf.
  by destruct (pattern_anomalies_types _ _ _ Hf).
Qed.

(** X13.  The memory rule of the trend detector.  It runs only when the
    buffer holds at least 20 snapshots, although it reads only the last 15
    of them, and when at least 10 of these have a [memory] group.  Then a
    finding of type [memory_leak_pattern], of severity [high], is emitted
    exactly when the slope that [numpy.polyfit] returns for their memory
    usage exceeds 2 per snapshot. *)
Theorem memory_leak_rule (self : AIEngine) (metrics_data : Metrics) :
  let history := items (historical_data self) in
  let memory_values := usage_values "memory" (last_n 15 history) in
  let found :=
    of_type "memory_leak_pattern" (_detect_pattern_anomalies metrics_data self) in
  (length history < 20 → found = []) ∧
  (length memory_values < 10 → found = []) ∧
  (20 ≤ length history → 10 ≤ length memory_values →
     ((2 < polyfit1_slope memory_values)%Q →
        ∃ f, found = [f] ∧ severity f = "high") ∧
     (¬ (2 < polyfit1_slope memory_values)%Q → found = [])).
Proof.
  intros history memory_values found. split; [|split].
  - intros Hlen. subst found. unfold _detect_pattern_anomalies. fold history.
    by rewrite (proj2 (Nat.ltb_lt _ _) Hlen).
  - intros Hmem. subst found. unfold _detect_pattern_anomalies. fold history.
    destruct (length history <? 20); [done|]. cbv zeta. fold memory_values.
    rewrite (proj2 (Nat.leb_gt _ _) Hmem).
    repeat match goal with |- context [if ?b then _ else _] => destruct b end;
      reflexivity.
  - intros Hlen Hmem. split.
    + intros Hlt. subst found. unfold _detect_pattern_anomalies. fold history.
      rewrite (proj2 (Nat.ltb_ge _ _) Hlen). cbv zeta. fold memory_values.
      rewrite (proj2 (Nat.leb_le _ _) Hmem), (proj2 (Qltb_lt _ _) Hlt).
      repeat match goal with |- context [if ?b then _ else _] => destruct b end;
        (eexists; split; [reflexivity|done]).
    + intros Hge. subst found. unfold _detect_pattern_anomalies. fold history.
      rewrite (proj2 (Nat.ltb_ge _ _) Hlen). cbv zeta. fold memory_values.
      rewrite (proj2 (Nat.leb_le _ _) Hmem).
      assert (Qltb 2 (polyfit1_slope memory_values) = false) as ->.
      { apply Qltb_ge. by apply Qnot_lt_le. }
      repeat match goal with |- context [if ?b then _ else _] => destruct b end;
        reflexivity.
Qed.

Lemma system_anomalies_types (self : AIEngine) features f :
  f ∈ snd (_detect_system_anomalies features self) → type f = "system_anomaly".
Proof.
  unfold _detect_system_anomalies, try_except, bind, gets,
    scaler_fit_transform, model_fit, scaler_transform,
    model_decision_function, model_predict, bind, lift, modify, ret.
  repeat (case_match; simplify_eq/=; try by intros ?%elem_of_nil);
    by intros ->%list_elem_of_singleton.
Qed.

Lemma network_anomalies_types (self : AIEngine) features f :
  f ∈ snd (_detect_network_anomalies features self) → type f = "network_anomaly".
Proof.
  unfold _detect_network_anomalies, try_except, bind, gets,
    scaler_fit_transform, model_fit, scaler_transform,
    model_decision_function, model_predict, bind, lift, modify, ret.
  repeat (case_match; simplify_eq/=; try by intros ?%elem_of_nil);
    by intros ->%list_elem_of_singleton.
Qed.

Lemma keeps_typed_ret {A} (a : A) : keeps_typed (ret a).
Proof. by intros l. Qed.

Lemma keeps_typed_bind {A B} (m : Exn (list Finding) A) (k : A → Exn (list Finding) B) :
  keeps_typed m → (∀ a, keeps_typed (k a)) → keeps_typed (bind m k).
Proof.
  intros Hm Hk l Hl. unfold bind. specialize (Hm l Hl).
  destruct (m l) as [l' [a|]]; [|done]. by apply Hk.
Qed.

Lemma keeps_typed_threshold_of (self : AIEngine) name : keeps_typed (threshold_of self name).
Proof. by intros l. Qed.

Lemma keeps_typed_append f : type f ∈ threshold_types → keeps_typed (append f).
Proof.
  intros Hf l Hl. simpl. apply Forall_app. split; [done|]. by constructor.
Qed.

Lemma threshold_anomalies_types (self : AIEngine) md f :
  f ∈ _detect_threshold_anomalies md self → type f ∈ threshold_types.
Proof.
  intros Hin.
  cut (typed (_detect_threshold_anomalies md self)).
  { intros H. by eapply Forall_forall in H. }
  unfold _detect_threshold_anomalies.
  match goal with |- typed (fst (?m [])) => cut (keeps_typed m) end.
  { intros H. apply H. constructor. }
  repeat first
    [ apply keeps_typed_ret
    | apply keeps_typed_threshold_of
    | apply keeps_typed_append; unfold threshold_types; set_solver
    | apply keeps_typed_bind; [|intros ?]
    | match goal with
      | |- keeps_typed (match ?x with Some _ => _ | None => _ end) => destruct x
      | |- keeps_typed (if ?b then _ else _) => destruct b
      | |- keeps_typed (let _ := _ in _) => cbv zeta
      end ].
Qed.

(** X14.  [suggest_remediation] on what the detectors emit.  Every
    finding of the threshold detector has an entry of its own in the table,
    with three actions and two scripts.  The findings of the two outlier
    detectors and the CPU trend finding have none: for them, as for an
    anomaly without type, the answer is the fallback [manual_investigation]
    with no script.  Of the trend findings only [memory_leak_pattern] has
    an entry. *)
Theorem remediation_of_findings (self : AIEngine) (metrics_data : Metrics)
    (features : list Q) (f : Finding) :
  (f ∈ _detect_threshold_anomalies metrics_data self →
     remediation_actions !! type f = Some (suggest_remediation (Some (type f))) ∧
     length (actions (suggest_remediation (Some (type f)))) = 3 ∧
     length (scripts (suggest_remediation (Some (type f)))) = 2) ∧
  (f ∈ snd (_detect_system_anomalies features self) ∨
   f ∈ snd (_detect_network_anomalies features self) →
     suggest_remediation (Some (type f)) = manual_investigation) ∧
  (f ∈ _detect_pattern_anomalies metrics_data self →
     (type f = "cpu_trend_anomaly" ∧
      suggest_remediation (Some (type f)) = manual_investigation) ∨
     (type f = "memory_leak_pattern" ∧
      remediation_actions !! type f = Some (suggest_remediation (Some (type f))))) ∧
  suggest_remediation None = manual_investigation ∧
  scripts manual_investigation = [].
Proof.
  split; [|split; [|split; [|split]]].
  - intros Hin. apply threshold_anomalies_types in Hin.
    unfold threshold_types in Hin. rewrite !elem_of_cons in Hin.
    destruct Hin as [->|[->|[->|[->|Hin]]]];
      [by vm_compute..|by apply elem_of_nil in Hin].
  - intros [Hin|Hin].
    + apply system_anomalies_types in Hin as ->. by vm_compute.
    + apply network_anomalies_types in Hin as ->. by vm_compute.
  - intros Hin. apply pattern_anomalies_types in Hin as [[->| ->] _].
    + left. by vm_compute.
    + right. by vm_compute.
  - by vm_compute.
  - done.
Qed.

End detectors.

Section health.
Context `{ML : SkLearn} `{NP : Numpy}.

Lemma threshold_anomalies_by_metric (self : AIEngine) (md : Metrics) :
  thresholds self = thresholds __init__ →
  _detect_threshold_anomalies md self =
    breach md "cpu" "usage_percent" 80 cpu_breach_finding ++
    breach md "memory" "usage_percent" 85 memory_breach_finding ++
    breach md "disk" "usage_percent" 90 disk_breach_finding ++
    breach md "network" "latency_ms" 200 latency_finding.
Proof.
  intros Hth. unfold _detect_threshold_anomalies, threshold_of, breach,
    cpu_breach_finding, memory_breach_finding, disk_breach_finding, latency_finding.
  rewrite Hth.
  change (thresholds __init__ !! "cpu_usage") with (Some 80%Q).
  change (thresholds __init__ !! "memory_usage") with (Some 85%Q).
  change (thresholds __init__ !! "disk_usage") with (Some 90%Q).
  change (thresholds __init__ !! "network_latency") with (Some 200%Q).
  destruct (md !! "cpu") as [cpu|];
    destruct (md !! "memory") as [mem|];
    destruct (md !! "disk") as [disk|];
    destruct (md !! "network") as [net|];
    unfold bind, lift, append, modify, ret; simpl;
    repeat match goal with |- context [Qltb ?a ?b] =>
             lazymatch b with
             | get _ _ => destruct (Qltb a b) eqn:?
             end; simpl
           end; reflexivity.
Qed.

(** The effect of one block of [system_health_check], and how it agrees
    with the finding of the same metric of the threshold detector. *)
Lemma check_component_effect latest name cl ci cim cp wl wi wp h
    (mk : Q → Finding) :
  (0 < cp)%Z → (0 < wp)%Z → (wl <= cl)%Q →
  (∀ v, metric_of (type (mk v)) = Some name ∧
        severity (mk v) = if Qltb cl v then "critical" else "high") →
  let h' := check_component latest name cl ci cim cp wl wi wp h in
  ∃ dc dw pen,
    hs_critical_issues h' = hs_critical_issues h ++ dc ∧
    hs_warnings h' = hs_warnings h ++ dw ∧
    hs_overall_score h' = (hs_overall_score h - pen)%Z ∧
    (0 ≤ pen ≤ Z.max cp wp)%Z ∧
    (pen = 0%Z ↔ dc = [] ∧ dw = []) ∧
    component <$> dc = metrics_with "critical" (breach latest name "usage_percent" wl mk) ∧
    component <$> dw = metrics_with "high" (breach latest name "usage_percent" wl mk).
Proof.
  intros Hcp Hwp Hle Hmk h'. subst h'. unfold check_component, breach.
  destruct (latest !! name) as [g|].
  - set (u := get g "usage_percent"). destruct (Hmk u) as [Hm Hsev].
    destruct (Qltb cl u) eqn:Hc.
    + assert (Qltb wl u = true) as Hw.
      { apply Qltb_lt. apply Qltb_lt in Hc. by eapply Qle_lt_trans. }
      rewrite Hw. eexists [_], [], cp. cbn [hs_critical_issues hs_warnings hs_overall_score].
      rewrite app_nil_r. repeat split; try done; try lia.
      * intros [? _]. done.
      * unfold metrics_with. cbn [omap list_omap]. rewrite Hsev, Hm.
        by rewrite decide_True.
      * unfold metrics_with. cbn [omap list_omap]. rewrite Hsev.
        by rewrite decide_False.
    + destruct (Qltb wl u) eqn:Hw.
      * eexists [], [_], wp. cbn [hs_critical_issues hs_warnings hs_overall_score].
        rewrite app_nil_r. repeat split; try done; try lia.
        -- intros [_ ?]. done.
        -- unfold metrics_with. cbn [omap list_omap]. rewrite Hsev.
           by rewrite decide_False.
        -- unfold metrics_with. cbn [omap list_omap]. rewrite Hsev, Hm.
           by rewrite decide_True.
      * exists [], [], 0%Z. cbn [hs_critical_issues hs_warnings hs_overall_score].
        rewrite !app_nil_r. repeat split; try done; lia.
  - exists [], [], 0%Z. rewrite !app_nil_r. repeat split; try done; lia.
Qed.

Lemma health_decomposition (self : AIEngine) before entry :
  items (historical_data self) = before ++ [entry] →
  let h := system_health_check self in
  ∃ dc1 dw1 p1 dc2 dw2 p2 dc3 dw3 p3,
    critical_issues h = dc1 ++ dc2 ++ dc3 ∧
    warnings h = Some (dw1 ++ dw2 ++ dw3) ∧
    overall_score h = Some (100 - p1 - p2 - p3)%Z ∧
    status h = match dc1 ++ dc2 ++ dc3, dw1 ++ dw2 ++ dw3 with
               | _ :: _, _ => "critical"
               | [], _ :: _ => "warning"
               | [], [] => "healthy"
               end ∧
    (0 ≤ p1 ≤ 30)%Z ∧ (0 ≤ p2 ≤ 25)%Z ∧ (0 ≤ p3 ≤ 35)%Z ∧
    (p1 = 0%Z ↔ dc1 = [] ∧ dw1 = []) ∧ (p2 = 0%Z ↔ dc2 = [] ∧ dw2 = []) ∧
    (p3 = 0%Z ↔ dc3 = [] ∧ dw3 = []) ∧
    component <$> dc1 ++ dc2 ++ dc3 =
      metrics_with "critical"
        (breach (data entry) "cpu" "usage_percent" 80 cpu_breach_finding ++
         breach (data entry) "memory" "usage_percent" 85 memory_breach_finding ++
         breach (data entry) "disk" "usage_percent" 90 disk_breach_finding) ∧
    component <$> dw1 ++ dw2 ++ dw3 =
      metrics_with "high"
        (breach (data entry) "cpu" "usage_percent" 80 cpu_breach_finding ++
         breach (data entry) "memory" "usage_percent" 85 memory_breach_finding ++
         breach (data entry) "disk" "usage_percent" 90 disk_breach_finding).
Proof.
  intros Hitems h. subst h. unfold system_health_check.
  rewrite Hitems, last_snoc. cbv zeta.
  set (h0 := {| hs_critical_issues := []; hs_warnings := [];
                hs_overall_score := 100; hs_component_scores := ∅ |}).
  set (h1 := check_component (data entry) "cpu" _ _ _ _ _ _ _ h0).
  set (h2 := check_component (data entry) "memory" _ _ _ _ _ _ _ h1).
  set (h3 := check_component (data entry) "disk" _ _ _ _ _ _ _ h2).
  destruct (check_component_effect (data entry) "cpu"
              95 "Critical CPU usage" "System may become unresponsive" 30
              80 "High CPU usage" 10 h0 cpu_breach_finding)
    as (dc1 & dw1 & p1 & Hc1 & Hw1 & Hs1 & Hp1 & Hz1 & Hm1 & Hn1);
    [lia | lia | by vm_compute | by intros v |].
  destruct (check_component_effect (data entry) "memory"
              95 "Critical memory usage" "Risk of out-of-memory errors" 25
              85 "High memory usage" 10 h1 memory_breach_finding)
    as (dc2 & dw2 & p2 & Hc2 & Hw2 & Hs2 & Hp2 & Hz2 & Hm2 & Hn2);
    [lia | lia | by vm_compute | by intros v |].
  destruct (check_component_effect (data entry) "disk"
              98 "Critical disk usage" "System may fail to write data" 35
              90 "High disk usage" 15 h2 disk_breach_finding)
    as (dc3 & dw3 & p3 & Hc3 & Hw3 & Hs3 & Hp3 & Hz3 & Hm3 & Hn3);
    [lia | lia | by vm_compute | by intros v |].
  fold h1 in Hc1, Hw1, Hs1, Hc2, Hw2, Hs2.
  fold h2 in Hc2, Hw2, Hs2, Hc3, Hw3, Hs3. fold h3 in Hc3, Hw3, Hs3.
  assert (hs_critical_issues h3 = dc1 ++ dc2 ++ dc3) as HC.
  { rewrite Hc3, Hc2, Hc1. simpl. by rewrite <- app_assoc. }
  assert (hs_warnings h3 = dw1 ++ dw2 ++ dw3) as HW.
  { rewrite Hw3, Hw2, Hw1. simpl. by rewrite <- app_assoc. }
  exists dc1, dw1, p1, dc2, dw2, p2, dc3, dw3, p3.
  cbn [critical_issues warnings overall_score status].
  rewrite HC, HW, Hs3, Hs2, Hs1. simpl hs_overall_score.
  unfold metrics_with. rewrite !omap_app, !fmap_app.
  fold (metrics_with "critical") (metrics_with "high").
  rewrite Hm1, Hm2, Hm3, Hn1, Hn2, Hn3.
  split_and!; try done; lia.
Qed.

(** X15.  The answer of [system_health_check].  With an empty buffer it
    is [insufficient_data] without score.  Otherwise only the latest
    snapshot counts: the overall score is between 10 and 100, the status is
    [critical] exactly when there is a critical issue, [warning] exactly
    when there are warnings and no critical issue, and [healthy] exactly
    when the score is 100. *)
Theorem system_health_check_summary (self : AIEngine) :
  let h := system_health_check self in
  (items (historical_data self) = [] →
     status h = "insufficient_data" ∧ critical_issues h = [] ∧
     overall_score h = None ∧ warnings h = None) ∧
  (∀ before entry, items (historical_data self) = before ++ [entry] →
     ∃ score ws,
       overall_score h = Some score ∧ warnings h = Some ws ∧
       (10 ≤ score ≤ 100)%Z ∧
       (status h = "critical" ↔ critical_issues h ≠ []) ∧
       (status h = "warning" ↔ critical_issues h = [] ∧ ws ≠ []) ∧
       (status h = "healthy" ↔ score = 100%Z) ∧
       (status h = "healthy" ↔ critical_issues h = [] ∧ ws = [])).
Proof.
  intros h. split.
  - intros Hnil. subst h. unfold system_health_check. by rewrite Hnil.
  - intros before entry Hitems.
    destruct (health_decomposition self before entry Hitems)
      as (dc1 & dw1 & p1 & dc2 & dw2 & p2 & dc3 & dw3 & p3 &
          HC & HW & HS & Hst & Hp1 & Hp2 & Hp3 & Hz1 & Hz2 & Hz3 & _).
    fold h in HC, HW, HS, Hst.
    exists (100 - p1 - p2 - p3)%Z, (dw1 ++ dw2 ++ dw3).
    rewrite HC, Hst.
    assert ((100 - p1 - p2 - p3 = 100)%Z ↔
            dc1 ++ dc2 ++ dc3 = [] ∧ dw1 ++ dw2 ++ dw3 = []) as Hfull.
    { split.
      - intros Heq. assert (p1 = 0 ∧ p2 = 0 ∧ p3 = 0)%Z as (E1 & E2 & E3) by lia.
        apply Hz1 in E1 as [-> ->]. apply Hz2 in E2 as [-> ->].
        by apply Hz3 in E3 as [-> ->].
      - intros [Hc Hw].
        apply app_eq_nil in Hc as [E1 Hc]. apply app_eq_nil in Hc as [E2 E3].
        apply app_eq_nil in Hw as [F1 Hw]. apply app_eq_nil in Hw as [F2 F3].
        assert (p1 = 0)%Z by (apply Hz1; done).
        assert (p2 = 0)%Z by (apply Hz2; done).
        assert (p3 = 0)%Z by (apply Hz3; done). lia. }
    split; [done|]. split; [done|]. split; [lia|].
    rewrite Hfull.
    destruct (dc1 ++ dc2 ++ dc3), (dw1 ++ dw2 ++ dw3);
      repeat split; intros; try done;
      repeat match goal with H : _ ∧ _ |- _ => destruct H end; done.
Qed.

Lemma metrics_with_latency sev md :
  sev ≠ "medium" →
  metrics_with sev (breach md "network" "latency_ms" 200 latency_finding) = [].
Proof.
  intros Hsev. unfold breach. destruct (md !! "network") as [g|]; [|done].
  destruct (Qltb _ _); [|done]. unfold metrics_with. cbn [omap list_omap].
  rewrite decide_False; [done|]. simpl. congruence.
Qed.

(** X16.  [system_health_check] and the threshold detector agree on the
    latest snapshot.  Under the limits of [__init__], the components that
    the health check lists as critical issues are, in the same order, the
    metrics for which the threshold detector emits a finding of severity
    [critical] on that snapshot, and the components of its warnings are
    those with a finding of severity [high]. *)
Theorem health_check_agrees_with_threshold_detector
    (self : AIEngine) (before : list Entry) (entry : Entry) :
  thresholds self = thresholds __init__ →
  items (historical_data self) = before ++ [entry] →
  let h := system_health_check self in
  let found := _detect_threshold_anomalies (data entry) self in
  component <$> critical_issues h = metrics_with "critical" found ∧
  ∃ ws, warnings h = Some ws ∧ component <$> ws = metrics_with "high" found.
Proof.
  intros Hth Hitems h found.
  destruct (health_decomposition self before entry Hitems)
    as (dc1 & dw1 & p1 & dc2 & dw2 & p2 & dc3 & dw3 & p3 &
        HC & HW & _ & _ & _ & _ & _ & _ & _ & _ & Hcrit & Hhigh).
  fold h in HC, HW. subst found.
  rewrite (threshold_anomalies_by_metric self (data entry) Hth).
  assert (∀ sev a b c d, metrics_with sev (a ++ b ++ c ++ d)
            = metrics_with sev (a ++ b ++ c) ++ metrics_with sev d) as Happ.
  { intros. unfold metrics_with. by rewrite !omap_app, <- !app_assoc. }
  rewrite !Happ, !metrics_with_latency, !app_nil_r by done.
  split; [by rewrite HC|]. exists (dw1 ++ dw2 ++ dw3). by split.
Qed.

End health.

Lemma system_health_check_summary_witness :
  let self := ingest (ML := toy_sklearn) (NP := exact_numpy)
                (usage_inputs "cpu" [50; 97]%Q) (initialize __init__) in
  ∃ score ws, overall_score (system_health_check self) = Some score ∧
              warnings (system_health_check self) = Some ws ∧
              (10 ≤ score ≤ 100)%Z.
Proof.
  intros self.
  destruct (proj2 (system_health_check_summary (ML := toy_sklearn) self)
              [entry_of (0%Z, usage_snapshot "cpu" 50)]
              (entry_of (1%Z, usage_snapshot "cpu" 97)))
    as (score & ws & H1 & H2 & H3 & _).
  - vm_compute. reflexivity.
  - exists score, ws. auto.
Defined.

Lemma health_check_agrees_with_threshold_detector_witness :
  let self := ingest (ML := toy_sklearn) (NP := exact_numpy)
                (usage_inputs "cpu" [50; 97]%Q) (initialize __init__) in
  component <$> critical_issues (system_health_check self)
  = metrics_with "critical"
      (_detect_threshold_anomalies (usage_snapshot "cpu" 97) self).
Proof.
  intros self.
  refine (proj1 (health_check_agrees_with_threshold_detector (ML := toy_sklearn) self
                   [entry_of (0%Z, usage_snapshot "cpu" 50)]
                   (entry_of (1%Z, usage_snapshot "cpu" 97)) _ _)).
  - vm_compute. reflexivity.
  - vm_compute. reflexivity.
Defined.

Lemma remediation_of_findings_witness :
  let md : Metrics := {[ "disk" := {[ "usage_percent" := 99%Q ]} ]} in
  let f := {| type := "disk_threshold_breach"; severity := "critical";
              score := None; value := Some 99%Q; threshold := Some 90%Q;
              description := [Lit "Disk usage "; Num 99; Lit "% exceeds threshold"];
              suggested_action := "cleanup_disk_space" |} in
  f ∈ _detect_threshold_anomalies (ML := toy_sklearn) md __init__ ∧
  length (scripts (suggest_remediation (Some (type f)))) = 2.
Proof.
  intros md f.
  assert (f ∈ _detect_threshold_anomalies (ML := toy_sklearn) md __init__) as Hin
    by (vm_compute; left).
  split; [exact Hin|].
  exact (proj2 (proj2 (proj1 (remediation_of_findings (ML := toy_sklearn) (NP := exact_numpy)
                                __init__ md [] f) Hin))).
Defined.

Lemma memory_leak_rule_witness :
  ∃ f, of_type "memory_leak_pattern"
         (_detect_pattern_anomalies (ML := toy_sklearn) (NP := exact_numpy)
             (usage_snapshot "memory" 70)
            (ingest (NP := exact_numpy) (usage_inputs "memory" steady_rise)
               (initialize __init__)))
       = [f] ∧ severity f = "high".
Proof.
  refine (proj1 (proj2 (proj2 (memory_leak_rule (ML := toy_sklearn) (NP := exact_numpy)
            (ingest (NP := exact_numpy) (usage_inputs "memory" steady_rise)
               (initialize __init__))
            (usage_snapshot "memory" 70))) _ _) _).
  - vm_compute. lia.
  - vm_compute. lia.
  - by vm_compute.
Defined.

Lemma detect_anomalies_findings_witness :
  detect_anomalies (ML := toy_sklearn) (NP := exact_numpy)
      3 (usage_snapshot "cpu" 99) (initialize __init__)
  = (append_history {| timestamp := 3; data := usage_snapshot "cpu" 99 |}
       (initialize __init__), []).
Proof.
  refine (proj1 (detect_anomalies_findings (ML := toy_sklearn) (NP := exact_numpy)
      (initialize __init__) 3
                   (usage_snapshot "cpu" 99) eq_refl) _).
  left. vm_compute. eexists. reflexivity.
Defined.

End detector_facts.

(** ** Trends and predictions *)

Module trend_facts.
Import ai_engine ai_engine_facts.

Lemma Qsum_app (l k : list Q) : (Qsum (l ++ k) == Qsum l + Qsum k)%Q.
Proof. induction l as [|x l IH]; simpl; [ring|]. rewrite IH. ring. Qed.

Lemma inject_S (n : nat) :
  (inject_Z (Z.of_nat (S n)) == inject_Z (Z.of_nat n) + 1)%Q.
Proof. rewrite Nat2Z.inj_succ. unfold Z.succ. by rewrite inject_Z_plus. Qed.

Lemma abscissae_S n : abscissae (S n) = abscissae n ++ [inject_Z (Z.of_nat n)].
Proof. unfold abscissae. by rewrite seq_S, fmap_app. Qed.

Lemma ramp_S a d n :
  ramp a d (S n) = ramp a d n ++ [(a + d * inject_Z (Z.of_nat n))%Q].
Proof. unfold ramp. by rewrite seq_S, fmap_app. Qed.

Lemma length_abscissae n : length (abscissae n) = n.
Proof. unfold abscissae. by rewrite length_fmap, length_seq. Qed.

Lemma length_ramp a d n : length (ramp a d n) = n.
Proof. unfold ramp. by rewrite length_fmap, length_seq. Qed.

(** The sums of the least-squares formula on a ramp, with [N] for the
    number of points. *)
Lemma ramp_sums a d n :
  let N := inject_Z (Z.of_nat n) in
  (2 * Qsum (abscissae n) == N * (N - 1))%Q ∧
  (6 * Qsum (zip_with Qmult (abscissae n) (abscissae n))
     == (N - 1) * N * (2 * N - 1))%Q ∧
  (Qsum (ramp a d n) == N * a + d * Qsum (abscissae n))%Q ∧
  (Qsum (zip_with Qmult (abscissae n) (ramp a d n))
     == a * Qsum (abscissae n)
        + d * Qsum (zip_with Qmult (abscissae n) (abscissae n)))%Q.
Proof.
  induction n as [|n (IH1 & IH2 & IH3 & IH4)].
  - simpl. split_and!; ring.
  - cbv zeta. rewrite abscissae_S, ramp_S.
    rewrite !zip_with_app by (by rewrite ?length_abscissae, ?length_ramp).
    rewrite !Qsum_app. simpl zip_with. simpl Qsum.
    rewrite inject_S. cbv zeta in IH1, IH2, IH3, IH4.
    set (N := inject_Z (Z.of_nat n)) in *.
    set (s1 := Qsum (abscissae n)) in *.
    set (s2 := Qsum (zip_with Qmult (abscissae n) (abscissae n))) in *.
    set (sy := Qsum (ramp a d n)) in *.
    set (sxy := Qsum (zip_with Qmult (abscissae n) (ramp a d n))) in *.
    split_and!.
    + lra.
    + nra.
    + rewrite IH3. ring.
    + rewrite IH4. ring.
Qed.

(** The least-squares slope is exact on a line: for a series of at least
    two values that rises by [d] at every step, it is [d]. *)
Lemma least_squares_slope_ramp (a d : Q) (n : nat) :
  2 ≤ n → (least_squares_slope (ramp a d n) == d)%Q.
Proof.
  intros Hn. unfold least_squares_slope. rewrite length_ramp. cbv zeta.
  fold (abscissae n).
  destruct (ramp_sums a d n) as (H1 & H2 & H3 & H4). cbv zeta in H1, H2, H3, H4.
  assert (2 <= inject_Z (Z.of_nat n))%Q as HN.
  { change 2%Q with (inject_Z 2). rewrite <- Zle_Qle. lia. }
  set (N := inject_Z (Z.of_nat n)) in *.
  set (s1 := Qsum (abscissae n)) in *.
  set (s2 := Qsum (zip_with Qmult (abscissae n) (abscissae n))) in *.
  rewrite H3, H4.
  assert (0 < N * s2 - s1 * s1)%Q as Hden.
  { assert (s1 == N * (N - 1) / 2)%Q as E1 by (field_simplify_eq; lra).
    assert (s2 == (N - 1) * N * (2 * N - 1) / 6)%Q as E2 by (field_simplify_eq; lra).
    rewrite E1, E2.
    assert (N * ((N - 1) * N * (2 * N - 1) / 6) - N * (N - 1) / 2 * (N * (N - 1) / 2)
            == N * N * (N - 1) * (N + 1) / 12)%Q as -> by field.
    apply Qlt_shift_div_l; [reflexivity|].
    assert (0 < N * N)%Q by nra. assert (0 < N - 1)%Q by lra.
    assert (0 < N + 1)%Q by lra.
    assert (0 < N * N * (N - 1))%Q by (apply Qmult_lt_0_compat; done).
    assert (0 < N * N * (N - 1) * (N + 1))%Q by (apply Qmult_lt_0_compat; done).
    lra. }
  assert (N * (a * s1 + d * s2) - s1 * (N * a + d * s1)
          == d * (N * s2 - s1 * s1))%Q as -> by ring.
  apply Qdiv_mult_l. intros Hz. rewrite Hz in Hden.
  by apply Qlt_irrefl in Hden.
Qed.

Lemma Qtrunc_lt (q : Q) (n : Z) : (0 < n)%Z → (q < inject_Z n)%Q → (Qtrunc q < n)%Z.
Proof.
  destruct q as [a b]. unfold Qlt, Qtrunc. simpl. intros Hn H.
  rewrite Z.mul_1_r in H.
  destruct (Z.le_gt_cases 0 a) as [Ha|Ha].
  - apply Z.quot_lt_upper_bound; lia.
  - assert (Z.quot a (Z.pos b) ≤ 0)%Z; [|lia].
    apply Z.quot_le_upper_bound; lia.
Qed.

Section steady.
Context `{ML : SkLearn} `{NP : Numpy}.

(** X18.  Memory usage that rises steadily.  When the buffer holds at
    least 20 snapshots, the memory usage of the last 15 of them, at least
    10 values, rises by the same [d] from each one to the next, and the
    fitted slope is within [eps] of the least-squares slope, which is [d],
    then the trend detector emits a [memory_leak_pattern] finding if [d]
    exceeds [2 + eps] and none if [d] is at most [2 - eps]. *)
Theorem memory_leak_on_steady_rise (self : AIEngine) (metrics_data : Metrics)
    (a d eps : Q) (n : nat) :
  let history := items (historical_data self) in
  let found :=
    of_type "memory_leak_pattern" (_detect_pattern_anomalies metrics_data self) in
  20 ≤ length history →
  usage_values "memory" (last_n 15 history) = ramp a d n →
  10 ≤ n →
  accurate_on (ramp a d n) eps →
  ((2 + eps < d)%Q → found ≠ []) ∧ ((d <= 2 - eps)%Q → found = []).
Proof.
  intros history found Hlen Hvals Hn [Hlo Hhi]. subst found.
  unfold _detect_pattern_anomalies. fold history.
  rewrite (proj2 (Nat.ltb_ge _ _) Hlen). cbv zeta.
  rewrite Hvals, length_ramp, (proj2 (Nat.leb_le _ _) Hn).
  rewrite (least_squares_slope_ramp a d n ltac:(lia)) in Hlo, Hhi.
  destruct (Qltb 2 (polyfit1_slope (ramp a d n))) eqn:E.
  - apply Qltb_lt in E.
    repeat match goal with |- context [if ?b then _ else _] => destruct b end;
      (split; [intros _; discriminate | intros Hd; lra]).
  - apply Qltb_ge in E.
    repeat match goal with |- context [if ?b then _ else _] => destruct b end;
      (split; [intros Hd; lra | done]).
Qed.

(** X20.  What every prediction carries.  No CPU prediction is ever made.
    A disk prediction has the confidence 0.9 and a time to failure below
    100 intervals; a memory prediction has the confidence 0.85 and a time
    to failure below 50 intervals: the slope that lets a prediction
    through always puts the scaled slope above the cap. *)
Theorem prediction_confidence_is_the_cap (self : AIEngine) (metrics_data : Metrics) :
  let predictions := predict_failure metrics_data self in
  cpu_overload_prediction predictions = None ∧
  (∀ p, disk_full_prediction predictions = Some p →
     confidence p = 0.9%Q ∧ (time_to_failure p < 100)%Z) ∧
  (∀ p, memory_exhaustion_prediction predictions = Some p →
     confidence p = 0.85%Q ∧ (time_to_failure p < 50)%Z).
Proof.
  intros predictions. subst predictions. unfold predict_failure.
  destruct (length _ <? 10); [done|].
  cbn [cpu_overload_prediction disk_full_prediction memory_exhaustion_prediction].
  split_and!; [done| |].
  - intros p. destruct (metrics_data !! "disk"); [|done].
    destruct (5 <=? _); [|done].
    destruct (Qltb 0.1 _) eqn:E; [|done]. apply Qltb_lt in E.
    destruct (Qltb _ 100) eqn:E'; [|done]. apply Qltb_lt in E'.
    intros [= <-]. cbn. split.
    + unfold py_min.
      match goal with |- context [Qltb ?x ?y] =>
        assert (Qltb x y = false) as ->; [apply Qltb_ge; lra | done] end.
    + by apply Qtrunc_lt.
  - intros p. destruct (metrics_data !! "memory"); [|done].
    destruct (5 <=? _); [|done].
    destruct (Qltb 0.5 _) eqn:E; [|done]. apply Qltb_lt in E.
    destruct (Qltb _ 50) eqn:E'; [|done]. apply Qltb_lt in E'.
    intros [= <-]. cbn. split.
    + unfold py_min.
      match goal with |- context [Qltb ?x ?y] =>
        assert (Qltb x y = false) as ->; [apply Qltb_ge; lra | done] end.
    + by apply Qtrunc_lt.
Qed.

(** X21.  The prediction reads the query only for the presence of its
    [disk] and [memory] groups: two queries that have the same of these
    two groups get the same predictions, whatever values they hold. *)
Theorem predict_failure_reads_presence_only (self : AIEngine)
    (metrics_data metrics_data' : Metrics) :
  (is_Some (metrics_data !! "disk") ↔ is_Some (metrics_data' !! "disk")) →
  (is_Some (metrics_data !! "memory") ↔ is_Some (metrics_data' !! "memory")) →
  predict_failure metrics_data self = predict_failure metrics_data' self.
Proof.
  intros Hdisk Hmem. unfold predict_failure.
  assert (∀ x y : option (gmap string Q), (is_Some x ↔ is_Some y) →
            match x, y with
            | Some _, None | None, Some _ => False
            | _, _ => True
            end) as Hagree.
  { intros [x|] [y|] [H1 H2]; try done.
    - destruct H1 as [? [=]]. by eexists.
    - destruct H2 as [? [=]]. by eexists. }
  apply Hagree in Hdisk, Hmem.
  destruct (metrics_data !! "disk"), (metrics_data' !! "disk"); try done;
    destruct (metrics_data !! "memory"), (metrics_data' !! "memory"); done.
Qed.

End steady.

Lemma memory_leak_on_steady_rise_witness :
  of_type "memory_leak_pattern"
    (_detect_pattern_anomalies (ML := toy_sklearn) (NP := exact_numpy)
       (usage_snapshot "memory" 70)
       (ingest (NP := exact_numpy) (usage_inputs "memory" steady_rise)
          (initialize __init__))) ≠ [].
Proof.
  refine (proj1 (memory_leak_on_steady_rise (ML := toy_sklearn) (NP := exact_numpy)
            (ingest (NP := exact_numpy) (usage_inputs "memory" steady_rise)
               (initialize __init__))
            (usage_snapshot "memory" 70) 25 3 0 15 _ _ _ _) _).
  - vm_compute. lia.
  - vm_compute. reflexivity.
  - lia.
  - unfold accurate_on. simpl. split; lra.
  - reflexivity.
Defined.

Lemma prediction_confidence_is_the_cap_witness :
  ∃ p, memory_exhaustion_prediction
         (predict_failure (ML := toy_sklearn) (NP := exact_numpy) (usage_snapshot "memory" 70)
            (ingest (NP := exact_numpy) (usage_inputs "memory" steady_rise)
               (initialize __init__)))
       = Some p ∧ confidence p = 0.85%Q ∧ (time_to_failure p < 50)%Z.
Proof.
  eexists. split; [by vm_compute|].
  apply (proj2 (proj2 (prediction_confidence_is_the_cap (ML := toy_sklearn) (NP := exact_numpy)
           (ingest (NP := exact_numpy) (usage_inputs "memory" steady_rise)
               (initialize __init__))
           (usage_snapshot "memory" 70)))).
  by vm_compute.
Defined.

Lemma predict_failure_reads_presence_only_witness :
  let self := ingest (ML := toy_sklearn) (NP := exact_numpy) (usage_inputs "memory" steady_rise)
                (initialize __init__) in
  predict_failure (NP := exact_numpy) (usage_snapshot "memory" 70) self
  = predict_failure (NP := exact_numpy) (usage_snapshot "memory" 5) self.
Proof.
  intros self. apply predict_failure_reads_presence_only.
  - split; intros [? H]; by vm_compute in H.
  - split; intros _; vm_compute; by eexists.
Defined.

End trend_facts.
